(** * hivefeedprice: price aggregation and endpoint failover

    A shallow embedding of the TypeScript sources of the feed-price
    publisher, and the properties its specification states about them.

    Conventions of the embedding.
    - A JavaScript [number] is [NaN], an infinity, or a finite value kept as
      an exact rational ([Qc]): the special values behave as in IEEE 754,
      the rounding of finite results to 53 bits and the sign of zero are not
      represented.
    - Loop counters and retry budgets are natural numbers.
    - A string is a [string] of 8-bit characters; the case mappings and the
      character classes are those of ASCII.
    - Asynchronous code is written in a state-and-exception monad over the
      host (network, timers, random source); every [await] is sequenced.
      A ghost trace records the sleeps and the calls made to callbacks.
      Console output is not represented. *)

From Stdlib Require Import Ascii String QArith Qcanon Qround ZArith Lia Lqa.
From stdpp Require Import base decidable option list strings gmap numbers pretty.

Set Default Proof Using "Type".
Local Open Scope string_scope.

(** ** JavaScript numbers *)

Module JS.

Inductive number : Type :=
  | NaN
  | PosInf
  | NegInf
  | Fin (q : Qc).

#[global] Instance number_eq_dec : EqDecision number.
Proof. solve_decision. Defined.

(** The rational of an integer. *)
Definition QcZ (z : Z) : Qc := Q2Qc (inject_Z z).

Definition of_Z (z : Z) : number := Fin (QcZ z).
Definition of_nat (n : nat) : number := of_Z (Z.of_nat n).

(** The abstract relational comparison: undefined as soon as one side is
    [NaN]. *)
Definition compare (x y : number) : option comparison :=
  match x, y with
  | NaN, _ | _, NaN => None
  | PosInf, PosInf | NegInf, NegInf => Some Eq
  | NegInf, _ | _, PosInf => Some Lt
  | PosInf, _ | _, NegInf => Some Gt
  | Fin a, Fin b => Some (a ?= b)%Qc
  end.

(** [x < y], [x <= y], [x > y], [x >= y], [x === y], [x !== y]. *)
Definition ltb (x y : number) : bool :=
  match compare x y with Some Lt => true | _ => false end.
Definition leb (x y : number) : bool :=
  match compare x y with Some Lt | Some Eq => true | _ => false end.
Definition gtb (x y : number) : bool := ltb y x.
Definition geb (x y : number) : bool := leb y x.
Definition strict_eq (x y : number) : bool :=
  match compare x y with Some Eq => true | _ => false end.
Definition strict_ne (x y : number) : bool := negb (strict_eq x y).

Definition isNaN (x : number) : bool :=
  match x with NaN => true | _ => false end.
Definition isFinite (x : number) : bool :=
  match x with Fin _ => true | _ => false end.

(** ToBoolean on a number: [0] and [NaN] are falsy. *)
Definition truthy (x : number) : bool :=
  match x with
  | NaN => false
  | Fin q => negb (bool_decide (q = 0%Qc))
  | _ => true
  end.

(** The infinity of a sign. *)
Definition signed_inf (positive : bool) : number :=
  if positive then PosInf else NegInf.

Definition is_pos (q : Qc) : bool := bool_decide (0 < q)%Qc.

Definition add (x y : number) : number :=
  match x, y with
  | NaN, _ | _, NaN => NaN
  | PosInf, NegInf | NegInf, PosInf => NaN
  | PosInf, _ | _, PosInf => PosInf
  | NegInf, _ | _, NegInf => NegInf
  | Fin a, Fin b => Fin (a + b)
  end.

(** The product of the infinity of a sign and [y]. *)
Definition mul_inf (positive : bool) (y : number) : number :=
  match y with
  | NaN => NaN
  | PosInf => signed_inf positive
  | NegInf => signed_inf (negb positive)
  | Fin b =>
      if bool_decide (b = 0%Qc) then NaN
      else signed_inf (if is_pos b then positive else negb positive)
  end.

Definition mul (x y : number) : number :=
  match x, y with
  | NaN, _ => NaN
  | PosInf, _ => mul_inf true y
  | NegInf, _ => mul_inf false y
  | Fin _, NaN => NaN
  | Fin _, PosInf => mul_inf true x
  | Fin _, NegInf => mul_inf false x
  | Fin a, Fin b => Fin (a * b)
  end.

(** A division by zero takes the zero for +0. *)
Definition div (x y : number) : number :=
  match x, y with
  | NaN, _ | _, NaN => NaN
  | (PosInf | NegInf), (PosInf | NegInf) => NaN
  | PosInf, Fin b => signed_inf (bool_decide (0 <= b)%Qc)
  | NegInf, Fin b => signed_inf (negb (bool_decide (0 <= b)%Qc))
  | Fin _, (PosInf | NegInf) => Fin 0
  | Fin a, Fin b =>
      if bool_decide (b = 0%Qc) then
        (if bool_decide (a = 0%Qc) then NaN else signed_inf (is_pos a))
      else Fin (a / b)
  end.

(** [Math.pow(b, n)] for a natural exponent [n]. *)
Definition Math_pow (b : number) (n : nat) : number :=
  Nat.iter n (mul b) (Fin 1).

(** [Math.min(x, y)]. *)
Definition Math_min (x y : number) : number :=
  match compare x y with
  | None => NaN
  | Some Gt => y
  | Some _ => x
  end.

(** [Math.round(x)]: the integer nearest to [x], ties towards +infinity. *)
Definition Math_round (x : number) : number :=
  match x with
  | Fin q => of_Z (Qfloor (q + Q2Qc (1 # 2)))
  | _ => x
  end.

End JS.

Abbreviation number := JS.number.

(** ** JavaScript strings *)

Module Str.

Definition code (c : ascii) : nat := nat_of_ascii c.

Definition is_digit (c : ascii) : bool := (48 <=? code c)%nat && (code c <=? 57)%nat.
Definition is_upper (c : ascii) : bool := (65 <=? code c)%nat && (code c <=? 90)%nat.

(** The class [\s] of regular expressions, which is also the white space
    [parseFloat] skips: TAB, LF, VT, FF, CR and SPACE. *)
Definition is_space (c : ascii) : bool :=
  ((9 <=? code c)%nat && (code c <=? 13)%nat) || (code c =? 32)%nat.

(** What [.] refuses in a regular expression. *)
Definition is_line_terminator (c : ascii) : bool :=
  (code c =? 10)%nat || (code c =? 13)%nat.

(** The class [[:\s]]. *)
Definition is_colon_or_space (c : ascii) : bool :=
  (code c =? 58)%nat || is_space c.

Definition lower_char (c : ascii) : ascii :=
  if is_upper c then ascii_of_nat (code c + 32) else c.

(** [s.toLowerCase()]. *)
Fixpoint toLowerCase (s : string) : string :=
  match s with
  | EmptyString => EmptyString
  | String c r => String (lower_char c) (toLowerCase r)
  end.

(** [s.includes(sub)]. *)
Fixpoint includes (s sub : string) : bool :=
  String.prefix sub s ||
  match s with
  | EmptyString => false
  | String _ r => includes r sub
  end.

(** The longest prefix of [s] made of characters of the class [p], and the
    rest: what a greedy [p*] consumes. *)
Fixpoint span (p : ascii -> bool) (s : string) : string * string :=
  match s with
  | EmptyString => (EmptyString, EmptyString)
  | String c r =>
      if p c then let '(m, r') := span p r in (String c m, r')
      else (EmptyString, s)
  end.

(** A literal under the flag [i]: [lit] is given in lower case; the rest of
    [s] after it when [s] starts with it, whatever the case. *)
Fixpoint ci_prefix (lit s : string) : option string :=
  match lit, s with
  | EmptyString, _ => Some s
  | String a lit', String c r =>
      if bool_decide (lower_char c = a) then ci_prefix lit' r else None
  | String _ _, EmptyString => None
  end.

(** [p+]: at least one character of the class, as many as there are. *)
Definition plus (p : ascii -> bool) (s : string) : option (string * string) :=
  match span p s with
  | (EmptyString, _) => None
  | (m, r) => Some (m, r)
  end.

(** [(\d{3})]: exactly three digits. *)
Definition three_digits (s : string) : option (string * string) :=
  match s with
  | String a (String b (String c r)) =>
      if is_digit a && is_digit b && is_digit c
      then Some (String a (String b (String c EmptyString)), r)
      else None
  | _ => None
  end.

(** The leftmost match: the matcher is tried at every position of the
    string, from the first, up to and including its end. *)
Fixpoint search {A : Type} (here : string -> option A) (s : string) : option A :=
  match here s with
  | Some x => Some x
  | None =>
      match s with
      | EmptyString => None
      | String _ r => search here r
      end
  end.

Definition digit_value (c : ascii) : Z := Z.of_nat (code c - 48).

(** The value of a string of decimal digits, after the accumulator. *)
Fixpoint digits_value (acc : Z) (s : string) : Z :=
  match s with
  | EmptyString => acc
  | String c r => digits_value (10 * acc + digit_value c) r
  end.

(** [parseInt(ds, 10)] on a non-empty string of decimal digits, which is
    all the sources apply it to after a regular expression has matched. *)
Definition parseInt_digits (ds : string) : number :=
  JS.of_Z (digits_value 0 ds).

(** [10^e] for an integer [e]. *)
Definition pow10 (e : Z) : Qc :=
  match e with
  | Z0 => 1%Qc
  | Zpos p => JS.QcZ (10 ^ Zpos p)
  | Zneg p => (/ JS.QcZ (10 ^ Zpos p))%Qc
  end.

(** The exponent part [e±ddd] of a decimal literal, 0 when there is none or
    when it has no digit. *)
Definition exponent (s : string) : Z :=
  match s with
  | String c r =>
      if bool_decide (lower_char c = "e"%char) then
        let '(negative, r1) :=
          match r with
          | String "-" r' => (true, r')
          | String "+" r' => (false, r')
          | _ => (false, r)
          end in
        match span is_digit r1 with
        | (EmptyString, _) => 0%Z
        | (ds, _) => if negative : bool then (- digits_value 0 ds)%Z else digits_value 0 ds
        end
      else 0%Z
  | EmptyString => 0%Z
  end.

(** [parseFloat(s)]: leading white space is skipped, then the longest prefix
    that is a decimal literal is read; [NaN] when there is none. *)
Definition parseFloat (s : string) : number :=
  let s1 := snd (span is_space s) in
  let '(negative, s2) :=
    match s1 with
    | String "-" r => (true, r)
    | String "+" r => (false, r)
    | _ => (false, s1)
    end in
  if String.prefix "Infinity" s2 then JS.signed_inf (negb negative)
  else
    let '(ip, s3) := span is_digit s2 in
    let '(fp, s4) :=
      match s3 with
      | String "." r => span is_digit r
      | _ => (EmptyString, s3)
      end in
    match ip, fp with
    | EmptyString, EmptyString => JS.NaN
    | _, _ =>
        let m := JS.QcZ (digits_value 0 (ip +:+ fp)) in
        let e := (exponent s4 - Z.of_nat (String.length fp))%Z in
        let q := (m * pow10 e)%Qc in
        JS.Fin (if negative : bool then (- q)%Qc else q)
    end.

End Str.

(** ** Values, completions and thrown values *)

(** The primitive values a provider or a decoded response can hand over. *)
Inductive value : Type :=
  | VUndefined
  | VNull
  | VBool (b : bool)
  | VNum (n : number)
  | VStr (s : string).

#[global] Instance value_eq_dec : EqDecision value.
Proof. solve_decision. Defined.

(** A function either returns or throws. *)
Inductive completion (E A : Type) : Type :=
  | Normal (a : A)
  | Abrupt (e : E).
Arguments Normal {E A} a.
Arguments Abrupt {E A} e.

#[global] Instance completion_eq_dec {E A} `{EqDecision E, EqDecision A} :
  EqDecision (completion E A).
Proof. solve_decision. Defined.

(** What a [catch] clause receives: an instance of [Error] (or of a subclass,
    [ctor] being the name of its constructor), or any other value, of which
    the sources only read the constructor name ([error?.constructor?.name]),
    the string conversion and the truthiness. *)
Inductive thrown : Type :=
  | ErrorObject (ctor : string) (message : string)
  | OtherValue (ctor : option string) (text : string) (truthy : bool).

#[global] Instance thrown_eq_dec : EqDecision thrown.
Proof. solve_decision. Defined.

Definition new_Error (message : string) : thrown := ErrorObject "Error" message.

(** The value [undefined], when it is thrown. *)
Definition thrown_undefined : thrown := OtherValue None "undefined" false.

Definition instanceof_Error (e : thrown) : bool :=
  match e with ErrorObject _ _ => true | OtherValue _ _ _ => false end.

(** [error?.constructor?.name] *)
Definition constructor_name (e : thrown) : option string :=
  match e with
  | ErrorObject c _ => Some c
  | OtherValue c _ _ => c
  end.

(** [error instanceof Error ? error.message : String(error)] *)
Definition message_or_String (e : thrown) : string :=
  match e with
  | ErrorObject _ m => m
  | OtherValue _ t _ => t
  end.

Definition thrown_truthy (e : thrown) : bool :=
  match e with
  | ErrorObject _ _ => true
  | OtherValue _ _ b => b
  end.

Abbreviation outcome := (completion thrown).

(** The decimal digits of the fractional part [r / d] (with [0 <= r < d]),
    at most [n] of them. *)
Fixpoint fraction_digits (n : nat) (r d : Z) : string :=
  match n with
  | O => EmptyString
  | S n' =>
      if (r =? 0)%Z then EmptyString
      else pretty (10 * r / d)%Z +:+ fraction_digits n' ((10 * r) mod d)%Z d
  end.

(** The string conversion of a number. On the exact value of a finite
    number this is its decimal expansion, cut after 17 fractional digits. *)
Definition Number_toString (x : number) : string :=
  match x with
  | JS.NaN => "NaN"
  | JS.PosInf => "Infinity"
  | JS.NegInf => "-Infinity"
  | JS.Fin q =>
      let n := Z.abs (Qnum q) in
      let d := Zpos (Qden q) in
      let frac := fraction_digits 17 (n mod d)%Z d in
      (if (Qnum q <? 0)%Z then "-" else "") +:+ pretty (n / d)%Z +:+
      (match frac with EmptyString => "" | _ => "." +:+ frac end)
  end.

(** [String(v)], as a template literal interpolates it. *)
Definition String_of (v : value) : string :=
  match v with
  | VUndefined => "undefined"
  | VNull => "null"
  | VBool true => "true"
  | VBool false => "false"
  | VNum n => Number_toString n
  | VStr s => s
  end.

(** ** The typed errors of the price domain ([types/errors]) *)

Inductive PriceErrorCode : Type :=
  | NETWORK_TIMEOUT
  | NETWORK_CONNECTION_FAILED
  | NETWORK_UNREACHABLE
  | API_RATE_LIMITED
  | API_UNAUTHORIZED
  | API_NOT_FOUND
  | API_SERVER_ERROR
  | API_INVALID_RESPONSE
  | INVALID_PRICE_DATA
  | PRICE_OUT_OF_RANGE
  | MISSING_PRICE_FIELD.

#[global] Instance PriceErrorCode_eq_dec : EqDecision PriceErrorCode.
Proof. solve_decision. Defined.

Inductive ErrorSeverity : Type := LOW | MEDIUM | HIGH | CRITICAL.

#[global] Instance ErrorSeverity_eq_dec : EqDecision ErrorSeverity.
Proof. solve_decision. Defined.

(** The context argument of the constructors: a partial [ErrorContext] with
    the extra fields of the subclasses. *)
Record ContextArg : Type := {
  arg_operation : option string;
  arg_exchangeName : string;
  arg_httpStatus : option number;
  arg_retryAfter : option number;
  arg_invalidData : option value;
}.

Record ErrorContext : Type := {
  operation : string;
  severity : ErrorSeverity;
  exchangeName : string;
  context_httpStatus : option number;
  context_retryAfter : option number;
  context_invalidData : option value;
}.

Inductive ErrorClass : Type :=
  | PriceNetworkError
  | PriceAPIError
  | PriceValidationError.

#[global] Instance ErrorClass_eq_dec : EqDecision ErrorClass.
Proof. solve_decision. Defined.

(** An instance of one of the three subclasses of [BaseAppError]. *)
Record BaseAppError : Type := {
  class : ErrorClass;
  message : string;
  code : PriceErrorCode;
  context : ErrorContext;
  httpStatus : option number;
  retryAfter : option number;
  invalidData : option value;
  cause : option thrown;
}.

(** [PriceDomainError]'s constructor: the defaults, then the given context,
    in which the subclass has already forced the severity. *)
Definition domain_context (arg : ContextArg) (sev : ErrorSeverity) : ErrorContext :=
  {| operation := default "price_operation" (arg_operation arg);
     severity := sev;
     exchangeName := arg_exchangeName arg;
     context_httpStatus := arg_httpStatus arg;
     context_retryAfter := arg_retryAfter arg;
     context_invalidData := arg_invalidData arg |}.

Definition new_PriceNetworkError (msg : string) (c : PriceErrorCode)
    (arg : ContextArg) (cause : option thrown) : BaseAppError :=
  {| class := PriceNetworkError; message := msg; code := c;
     context := domain_context arg HIGH;
     httpStatus := None; retryAfter := None; invalidData := None;
     cause := cause |}.

Definition new_PriceAPIError (msg : string) (c : PriceErrorCode)
    (arg : ContextArg) (cause : option thrown) : BaseAppError :=
  {| class := PriceAPIError; message := msg; code := c;
     context := domain_context arg
                  (if bool_decide (c = API_RATE_LIMITED) then MEDIUM else HIGH);
     httpStatus := arg_httpStatus arg;
     retryAfter := arg_retryAfter arg;
     invalidData := None;
     cause := cause |}.

Definition new_PriceValidationError (msg : string) (c : PriceErrorCode)
    (arg : ContextArg) (cause : option thrown) : BaseAppError :=
  {| class := PriceValidationError; message := msg; code := c;
     context := domain_context arg MEDIUM;
     httpStatus := None; retryAfter := None;
     invalidData := arg_invalidData arg;
     cause := cause |}.

(** A [Record<code, number>] literal and its indexing, [undefined] off the
    keys. *)
Fixpoint table_get (t : list (PriceErrorCode * number)) (c : PriceErrorCode)
    : option number :=
  match t with
  | [] => None
  | (k, v) :: t' => if bool_decide (k = c) then Some v else table_get t' c
  end.

Definition multipliers : list (PriceErrorCode * number) :=
  [ (NETWORK_TIMEOUT, JS.of_Z 2);
    (NETWORK_CONNECTION_FAILED, JS.of_Z 3);
    (NETWORK_UNREACHABLE, JS.of_Z 0) ].

Definition delays : list (PriceErrorCode * number) :=
  [ (API_RATE_LIMITED, JS.of_Z 5000);
    (API_SERVER_ERROR, JS.of_Z 3000) ].

Definition retryableCodes : list PriceErrorCode :=
  [ API_RATE_LIMITED; API_SERVER_ERROR ].

(** [isRetryable()], dispatched on the class of the receiver. *)
Definition isRetryable (e : BaseAppError) : bool :=
  match class e with
  | PriceNetworkError => negb (bool_decide (code e = NETWORK_UNREACHABLE))
  | PriceAPIError => bool_decide (code e ∈ retryableCodes)
  | PriceValidationError => bool_decide (code e = INVALID_PRICE_DATA)
  end.

(** [this.retryAfter] in a condition: defined, and neither 0 nor NaN. *)
Definition option_truthy (o : option number) : bool :=
  match o with
  | Some n => JS.truthy n
  | None => false
  end.

(** [getRetryDelay()], dispatched on the class of the receiver. *)
Definition getRetryDelay (e : BaseAppError) : number :=
  match class e with
  | PriceNetworkError =>
      let baseDelay := JS.of_Z 1000 in
      JS.mul baseDelay (default (JS.of_Z 1) (table_get multipliers (code e)))
  | PriceAPIError =>
      if bool_decide (code e = API_RATE_LIMITED) && option_truthy (retryAfter e)
      then JS.mul (default JS.NaN (retryAfter e)) (JS.of_Z 1000)
      else default (JS.of_Z 0) (table_get delays (code e))
  | PriceValidationError =>
      if isRetryable e then JS.of_Z 2000 else JS.of_Z 0
  end.

(** ** The price validator ([utils/price-validation]) *)

(** [typeof data === "string" ? parseFloat(data) : Number(data)], for a
    value that is neither [null] nor [undefined]. *)
Definition coerce_price (data : value) : number :=
  match data with
  | VStr s => Str.parseFloat s
  | VNum n => n
  | VBool b => if b then JS.of_Z 1 else JS.of_Z 0
  | VNull => JS.of_Z 0
  | VUndefined => JS.NaN
  end.

Definition validation_context (exchange : string) (bad : option value) : ContextArg :=
  {| arg_operation := Some "price_validation";
     arg_exchangeName := exchange;
     arg_httpStatus := None;
     arg_retryAfter := None;
     arg_invalidData := bad |}.

Definition validatePriceData (data : value) (symbol exchange : string)
    : completion BaseAppError number :=
  if bool_decide (data = VNull) || bool_decide (data = VUndefined) then
    Abrupt (new_PriceValidationError ("Missing price data for " +:+ symbol)
              MISSING_PRICE_FIELD (validation_context exchange None) None)
  else
    let price := coerce_price data in
    if JS.isNaN price || negb (JS.isFinite price) then
      Abrupt (new_PriceValidationError ("Invalid price value: " +:+ String_of data)
                INVALID_PRICE_DATA (validation_context exchange (Some data)) None)
    else if JS.leb price (JS.of_Z 0) || JS.gtb price (JS.of_Z 10000) then
      Abrupt (new_PriceValidationError
                ("Price out of valid range: $" +:+ Number_toString price)
                PRICE_OUT_OF_RANGE
                (validation_context exchange (Some (VNum price))) None)
    else Normal price.

(** [typeof price === "number" && price > 0 && !isNaN(price)] *)
Definition isValidPrice (price : value) : bool :=
  match price with
  | VNum n => JS.gtb n (JS.of_Z 0) && negb (JS.isNaN n)
  | _ => false
  end.

(** ** The error classifier ([utils/error-handlers]) *)

Module DomainAwareErrorHandler.

(** The context the callers pass: [{ domain: "price", operation,
    exchangeName?, maxRetries? }]. *)
Record Context : Type := {
  ctx_operation : string;
  ctx_exchangeName : option string;
  ctx_maxRetries : option nat;
}.

(** [/retry.after[:\s]+(\d+)/i] at one position: the digits of group 1. *)
Definition retry_after_here (s : string) : option string :=
  r1 ← Str.ci_prefix "retry" s;
  match r1 with
  | String c r2 =>
      if Str.is_line_terminator c then None
      else
        r3 ← Str.ci_prefix "after" r2;
        '(_, r4) ← Str.plus Str.is_colon_or_space r3;
        '(ds, _) ← Str.plus Str.is_digit r4;
        Some ds
  | EmptyString => None
  end.

Definition extractRetryAfter (message : string) : option number :=
  Str.parseInt_digits <$> Str.search retry_after_here message.

(** [/HTTP\s+(\d{3})|status[:\s]+(\d{3})|(\d{3})\s+error/i] at one
    position: the alternatives are tried in order; the digits of the group
    that took part in the match. *)
Definition http_status_here (s : string) : option string :=
  let alt1 :=
    r1 ← Str.ci_prefix "http" s;
    '(_, r2) ← Str.plus Str.is_space r1;
    '(ds, _) ← Str.three_digits r2;
    Some ds in
  let alt2 :=
    r1 ← Str.ci_prefix "status" s;
    '(_, r2) ← Str.plus Str.is_colon_or_space r1;
    '(ds, _) ← Str.three_digits r2;
    Some ds in
  let alt3 :=
    '(ds, r1) ← Str.three_digits s;
    '(_, r2) ← Str.plus Str.is_space r1;
    _ ← Str.ci_prefix "error" r2;
    Some ds in
  match alt1, alt2 with
  | Some ds, _ => Some ds
  | None, Some ds => Some ds
  | None, None => alt3
  end.

Definition extractHttpStatus (message : string) : option number :=
  Str.parseInt_digits <$> Str.search http_status_here message.

Definition error_context (op exchange : string)
    (status retry : option number) : ContextArg :=
  {| arg_operation := Some op;
     arg_exchangeName := exchange;
     arg_httpStatus := status;
     arg_retryAfter := retry;
     arg_invalidData := None |}.

Definition createPriceError (message : string) (cause : option thrown)
    (context : Context) : BaseAppError :=
  let exchangeName :=
    match ctx_exchangeName context with
    | Some n => if bool_decide (n = "") then "Unknown" else n
    | None => "Unknown"
    end in
  let op := ctx_operation context in
  if Str.includes message "timeout" || Str.includes message "ETIMEDOUT" then
    new_PriceNetworkError ("Network timeout for " +:+ exchangeName)
      NETWORK_TIMEOUT (error_context op exchangeName None None) cause
  else if Str.includes message "ECONNREFUSED" ||
          (Str.includes message "connection" && Str.includes message "failed") then
    new_PriceNetworkError ("Connection failed to " +:+ exchangeName)
      NETWORK_CONNECTION_FAILED (error_context op exchangeName None None) cause
  else if Str.includes message "rate limit" || Str.includes message "429" then
    let retryAfter := extractRetryAfter message in
    new_PriceAPIError ("Rate limit exceeded for " +:+ exchangeName)
      API_RATE_LIMITED
      (error_context op exchangeName (Some (JS.of_Z 429)) retryAfter) cause
  else
    let httpStatus := extractHttpStatus message in
    let fallback :=
      new_PriceAPIError
        ("Invalid response from " +:+ exchangeName +:+ ": " +:+ message)
        API_INVALID_RESPONSE (error_context op exchangeName None None) cause in
    match httpStatus with
    | Some status =>
        if JS.truthy status then
          if JS.geb status (JS.of_Z 500) then
            new_PriceAPIError
              ("Server error from " +:+ exchangeName +:+ ": " +:+ message)
              API_SERVER_ERROR
              (error_context op exchangeName (Some status) None) cause
          else if JS.strict_eq status (JS.of_Z 404) then
            new_PriceAPIError ("Resource not found on " +:+ exchangeName)
              API_NOT_FOUND
              (error_context op exchangeName (Some status) None) cause
          else if JS.strict_eq status (JS.of_Z 401) ||
                  JS.strict_eq status (JS.of_Z 403) then
            new_PriceAPIError ("Unauthorized access to " +:+ exchangeName)
              API_UNAUTHORIZED
              (error_context op exchangeName (Some status) None) cause
          else fallback
        else fallback
    | None => fallback
    end.

Definition createTypedError (error : thrown) (context : Context) : BaseAppError :=
  let message := message_or_String error in
  let cause := if instanceof_Error error then Some error else None in
  createPriceError message cause context.

End DomainAwareErrorHandler.

(** ** Asynchronous code: the host, the trace and the monad *)

(** What the program observes of its host besides the callbacks it is
    given: whether the timer of [ms] milliseconds settles before the round
    it races against, and the draws of [Math.random()]. *)
Class Host (W : Type) : Type := {
  timer_wins : number -> W -> bool * W;
  Math_random : W -> number * W;
}.

Inductive event : Type :=
  | EvSleep (ms : number)
  | EvRound
  | EvCall (callee : string) (result : outcome value)
  | EvOperation (endpoint : option string) (result : outcome value).

#[global] Instance event_eq_dec : EqDecision event.
Proof. solve_decision. Defined.

Record machine (W : Type) : Type := {
  world : W;
  trace : list event;
}.
Arguments world {W} _.
Arguments trace {W} _.

(** A computation over a state [S] that returns or throws. *)
Definition M (S A : Type) : Type := S -> outcome A * S.

Definition ret {S A} (a : A) : M S A := fun s => (Normal a, s).
Definition throw {S A} (e : thrown) : M S A := fun s => (Abrupt e, s).
Definition bind {S A B} (m : M S A) (k : A -> M S B) : M S B :=
  fun s =>
    match m s with
    | (Normal a, s') => k a s'
    | (Abrupt e, s') => (Abrupt e, s')
    end.

(** [try { ... } catch (error) { ... }]: the completion of the block, handed
    to what follows. *)
Definition try {S A} (m : M S A) : M S (outcome A) :=
  fun s => let '(r, s') := m s in (Normal r, s').

(** A function that does not touch the state. *)
Definition lift {S A} (r : outcome A) : M S A := fun s => (r, s).

#[global] Instance M_ret {S} : MRet (M S) := fun A a => ret a.
#[global] Instance M_bind {S} : MBind (M S) := fun A B k m => bind m k.

Section Effects.
Context {W : Type} `{Host W}.

Definition log_event (e : event) : M (machine W) unit :=
  fun s => (Normal tt, {| world := world s; trace := trace s ++ [e] |}).

(** [await sleep(ms)] *)
Definition sleep (ms : number) : M (machine W) unit := log_event (EvSleep ms).

(** A step of the host. *)
Definition host {A} (f : W -> A * W) : M (machine W) A :=
  fun s => let '(a, w) := f (world s) in
           (Normal a, {| world := w; trace := trace s |}).

(** [await callee()] on a callback of the host, recorded in the trace. *)
Definition call {A} (show : A -> value) (callee : string)
    (f : W -> outcome A * W) : M (machine W) A :=
  fun s => let '(r, w) := f (world s) in
           let shown := match r with
                        | Normal a => Normal (show a)
                        | Abrupt e => Abrupt e
                        end in
           (r, {| world := w; trace := trace s ++ [EvCall callee shown] |}).
End Effects.

(** ** [utils/math] *)

(** Modelled from the spec: [roundToThreeDecimals] of [@/utils/math] is not
    among the sources. The specification has every price rounded to three
    decimal places; this is [Math.round(x * 1000) / 1000]. *)
Definition roundToThreeDecimals (x : number) : number :=
  JS.div (JS.Math_round (JS.mul x (JS.of_Z 1000))) (JS.of_Z 1000).

(** ** Price providers ([types/price-provider]) *)

Record ExchangePrice : Type := {
  exchange : string;
  price : number;
  success : bool;
  error : option string;
}.

#[global] Instance ExchangePrice_eq_dec : EqDecision ExchangePrice.
Proof. solve_decision. Defined.

Module PriceProvider.

Record t (W : Type) : Type := {
  exchangeName : string;
  baseUrl : string;
  maxRetries : nat;
  retryAttempts : nat;
  retryDelay : number;
  requestTimeout : number;
  getHivePrice : W -> outcome number * W;
}.
Arguments exchangeName {W} _.
Arguments baseUrl {W} _.
Arguments maxRetries {W} _.
Arguments retryAttempts {W} _.
Arguments retryDelay {W} _.
Arguments requestTimeout {W} _.
Arguments getHivePrice {W} _.

(** A provider as its class initialises it. *)
Definition new {W} (name url : string) (get : W -> outcome number * W) : t W :=
  {| exchangeName := name; baseUrl := url;
     maxRetries := 3; retryAttempts := 3;
     retryDelay := JS.of_Z 1000; requestTimeout := JS.of_Z 10000;
     getHivePrice := get |}.

Section fetchWithRetry.
Context {W : Type} (this : t W) (fetchFn : W -> outcome value * W).

(** [lastError || new Error(...)] *)
Definition surfaced (lastError : option thrown) : thrown :=
  match lastError with
  | Some e =>
      if thrown_truthy e then e
      else new_Error ("All attempts failed for " +:+ exchangeName this)
  | None => new_Error ("All attempts failed for " +:+ exchangeName this)
  end.


End fetchWithRetry.

End PriceProvider.

(** ** From providers to exchange prices ([utils/provider-mapping]) *)

Section ProviderMapping.
Context {W : Type}.

(** A slot of the provider array: [None] for [null] or [undefined], which
    the first mapping guards against. *)
Definition slot : Type := option (PriceProvider.t W).

(** Reading [provider.exchangeName] on a missing provider. *)
Definition TypeError_exchangeName : thrown :=
  ErrorObject "TypeError" "Cannot read properties of undefined (reading 'exchangeName')".

Definition failed (name : string) (msg : string) : ExchangePrice :=
  {| exchange := name; price := JS.of_Z 0; success := false; error := Some msg |}.

(** [error instanceof Error ? error.message : "Unknown error"] *)
Definition message_or_unknown (e : thrown) : string :=
  match e with
  | ErrorObject _ m => m
  | OtherValue _ _ _ => "Unknown error"
  end.

(** [provider.exchangeName || "Unknown"] *)
Definition name_or_unknown (n : string) : string :=
  if bool_decide (n = "") then "Unknown" else n.

(** The body of the [try] block of the first mapping. *)
Definition checked_price (provider : slot) : M (machine W) ExchangePrice :=
  match provider with
  | None => throw (new_Error "Invalid provider configuration")
  | Some p =>
      if bool_decide (PriceProvider.exchangeName p = "") then
        throw (new_Error "Invalid provider configuration")
      else
        price ← call VNum (PriceProvider.exchangeName p) (PriceProvider.getHivePrice p);
        if negb (isValidPrice (VNum price)) then
          throw (new_Error ("Invalid price received: " +:+ Number_toString price))
        else
          mret {| exchange := PriceProvider.exchangeName p; price := price;
                  success := true; error := None |}
  end.

(** The asynchronous callback of the first mapping: the [try] block and
    its [catch] clause, which itself throws on a missing provider. *)
Definition exchange_price_of (provider : slot) : M (machine W) ExchangePrice :=
  r ← try (checked_price provider);
  match r with
  | Normal ep => mret ep
  | Abrupt e =>
      match provider with
      | None => throw TypeError_exchangeName
      | Some p =>
          mret (failed (name_or_unknown (PriceProvider.exchangeName p))
                       (message_or_unknown e))
      end
  end.

(** The callback of the second mapping. *)
Definition detailed_price_of (provider : slot) : M (machine W) ExchangePrice :=
  r ← try (match provider with
           | None => throw TypeError_exchangeName
           | Some p => call VNum (PriceProvider.exchangeName p) (PriceProvider.getHivePrice p)
           end);
  match r with
  | Normal price =>
      match provider with
      | None => throw TypeError_exchangeName
      | Some p => mret {| exchange := PriceProvider.exchangeName p; price := price;
                          success := true; error := None |}
      end
  | Abrupt e =>
      match provider with
      | None => throw TypeError_exchangeName
      | Some p => mret (failed (PriceProvider.exchangeName p) (message_or_unknown e))
      end
  end.

(** [Promise.allSettled(providers.map(f))]: every callback runs to its
    completion, one after the other in the order of the array. *)
Fixpoint allSettled {A B} (f : A -> M (machine W) B) (l : list A)
    : M (machine W) (list (outcome B)) :=
  match l with
  | [] => mret []
  | x :: l' =>
      r ← try (f x);
      rs ← allSettled f l';
      mret (r :: rs)
  end.

(** [result.status === "fulfilled" ? result.value : { ... }] *)
Definition settled_value (result : outcome ExchangePrice) : ExchangePrice :=
  match result with
  | Normal v => v
  | Abrupt _ => failed "Unknown" "Promise rejected"
  end.

Definition mapProvidersToExchangePrices (providers : list slot)
    : M (machine W) (list ExchangePrice) :=
  results ← allSettled exchange_price_of providers;
  mret (map settled_value results).

Definition mapProvidersToDetailedPrices (providers : list slot)
      : M (machine W) (list ExchangePrice) :=
    results ← allSettled detailed_price_of providers;
    mret (map settled_value results).
End ProviderMapping.

(** ** The weighted average ([types/weighted-price-provider]) *)

Record WeightedExchangePrice : Type := {
  base : ExchangePrice;
  weight : number;
  normalizedWeight : option number;
}.

Module WeightedPriceCalculator.

Definition calculateWeightedAverage (prices : list WeightedExchangePrice)
    : outcome number :=
  let successfulPrices := filter (fun p => success (base p) = true) prices in
  if bool_decide (length successfulPrices = 0%nat) then
    Abrupt (new_Error "No successful prices for weighted average calculation")
  else
    let totalWeight :=
      fold_left (fun sum p => JS.add sum (weight p)) successfulPrices (JS.of_Z 0) in
    if JS.strict_eq totalWeight (JS.of_Z 0) then
      Abrupt (new_Error "Total weight cannot be zero")
    else
      let weightedSum :=
        fold_left (fun sum p =>
                     let normalizedWeight := JS.div (weight p) totalWeight in
                     JS.add sum (JS.mul (price (base p)) normalizedWeight))
                  successfulPrices (JS.of_Z 0) in
      Normal (roundToThreeDecimals weightedSum).

End WeightedPriceCalculator.

(** ** The aggregator ([services/price-aggregator]) *)

(** [ProviderConfig]; the weight is optional at run time, the configuration
    being also read from unchecked JSON. *)
Record ProviderConfig : Type := {
  name : string;
  enabled : bool;
  config_weight : option number;
  config_timeout : option number;
  config_maxRetries : option nat;
}.

Module PriceAggregator.

Record t (W : Type) : Type := {
  providers : list (@slot W);
  providersConfig : gmap string ProviderConfig;
  timeout : number;
  maxRetries : nat;
}.
Arguments providers {W} _.
Arguments providersConfig {W} _.
Arguments timeout {W} _.
Arguments maxRetries {W} _.

(** [configArray.forEach((cfg) => map.set(cfg.name.toLowerCase(), cfg))] *)
Definition index_config (config : list ProviderConfig) : gmap string ProviderConfig :=
  fold_left (fun m cfg => <[Str.toLowerCase (name cfg) := cfg]> m) config ∅.

(** The constructor, on the provider list and the configuration it is
    given or has resolved from the registry. *)
Definition new {W} (ps : list (@slot W)) (config : list ProviderConfig)
    : outcome (t W) :=
  if bool_decide (length ps = 0%nat) then
    Abrupt (new_Error "At least one price provider is required")
  else
    Normal {| providers := ps;
              providersConfig := index_config config;
              timeout := JS.of_Z 5000;
              maxRetries := 3 |}.

Section Methods.
Context {W : Type} `{Host W} (this : t W).

(** [config?.weight || 1.0] *)
Definition weight_of (ep : ExchangePrice) : number :=
  let config := providersConfig this !! Str.toLowerCase (exchange ep) in
  match config ≫= config_weight with
  | Some w => if JS.truthy w then w else JS.of_Z 1
  | None => JS.of_Z 1
  end.

Definition applyWeights (exchangePrices : list ExchangePrice)
    : list WeightedExchangePrice :=
  map (fun ep => {| base := ep; weight := weight_of ep;
                    normalizedWeight := None |})
      exchangePrices.

Definition calculateFinalPrice (successfulPrices : list ExchangePrice)
    : outcome number :=
  if bool_decide (length successfulPrices = 0%nat) then
    Abrupt (new_Error "No successful prices to calculate average")
  else
    let weightedPrices := applyWeights successfulPrices in
    let hasWeights :=
      existsb (fun p => JS.strict_ne (weight p) (JS.of_Z 1)) weightedPrices in
    if hasWeights then
      WeightedPriceCalculator.calculateWeightedAverage weightedPrices
    else
      let totalPrice :=
        fold_left (fun sum ep => JS.add sum (price ep)) successfulPrices (JS.of_Z 0) in
      let averagePrice := JS.div totalPrice (JS.of_nat (length successfulPrices)) in
      Normal (roundToThreeDecimals averagePrice).

Definition fetchAllExchangePrices : M (machine W) (list ExchangePrice) :=
  mapProvidersToExchangePrices (providers this).

(** [Promise.race([fetchPromise, timeoutPromise])]: the round is started,
    and the host tells whether the timer settled first, in which case
    the result is [null] and the method returns the empty list. *)
Definition fetchPricesWithTimeout : M (machine W) (list ExchangePrice) :=
  log_event EvRound;;
  prices ← fetchAllExchangePrices;
  timedOut ← host (timer_wins (timeout this));
  if timedOut : bool then mret [] else mret prices.

Definition exhausted : thrown :=
  new_Error ("Failed to obtain HIVE price after " +:+ pretty (maxRetries this) +:+
             " attempts. All exchanges failed or timed out.").

(** The [while] loop from its iteration [attempt] on, [remaining] being
    the number of iterations left, [maxRetries + 1 - attempt]. The
    [try] block completes with [Some price] when it returns from the
    method, with [None] when it falls through. *)
Fixpoint getAggregatedHivePrice_from (remaining attempt : nat)
    : M (machine W) number :=
  match remaining with
  | O => throw exhausted
  | S remaining' =>
      r ← try (exchangePrices ← fetchPricesWithTimeout;
               let successfulPrices :=
                 filter (fun ep => success ep = true) exchangePrices in
               if (0 <? length successfulPrices)%nat then
                 p ← lift (calculateFinalPrice successfulPrices);
                 mret (Some p)
               else mret None);
      match r with
      | Normal (Some p) => mret p
      | Normal None | Abrupt _ =>
          (if (attempt <? maxRetries this)%nat then
             let delay := JS.mul (JS.of_Z 2000) (JS.of_nat attempt) in
             sleep delay
           else mret tt);;
          getAggregatedHivePrice_from remaining' (S attempt)
      end
  end.

Definition getAggregatedHivePrice : M (machine W) number :=
  if bool_decide (length (providers this) = 0%nat) then
    throw (new_Error "No price providers configured")
  else getAggregatedHivePrice_from (maxRetries this) 1.

Definition getDetailedPrices : M (machine W) (list ExchangePrice) :=
      mapProvidersToDetailedPrices (providers this).
End Methods.

End PriceAggregator.

(** ** Recoverable chain errors ([types/chain-errors]) *)

Definition recoverableErrors : list string :=
  [ "WaxRequestTimeoutError";
    "WaxNon_2XX_3XX_ResponseCodeError";
    "WaxUnknownRequestError" ].

Definition isRecoverableChainError (error : thrown) : bool :=
  let errorName := constructor_name error in
  bool_decide (default "" errorName ∈ recoverableErrors).

(** ** The failover wrapper ([utils/hive-chain-failover]) *)

Module HiveChainWithFailover.

(** What the wrapper reads and writes of the chain interface of the
    library: the endpoint it talks to, [undefined] when the wrapper has
    assigned it an element that the node array does not have. *)
Record Chain : Type := {
  endpointUrl : option string;
  apiTimeout : number;
}.

Record Config : Type := {
  config_nodes : list string;
  config_timeout : option number;
  config_maxRetries : option nat;
  config_baseRetryDelay : option number;
  config_maxRetryDelay : option number;
}.

Record t : Type := {
  chain : option Chain;
  nodes : list string;
  currentNodeIndex : nat;
  timeout : number;
  maxRetries : nat;
  baseRetryDelay : number;
  maxRetryDelay : number;
}.

Definition new (config : Config) : outcome t :=
  if bool_decide (length (config_nodes config) = 0%nat) then
    Abrupt (new_Error "At least one RPC node must be provided")
  else
    Normal {| chain := None;
              nodes := config_nodes config;
              currentNodeIndex := 0;
              timeout := default (JS.of_Z 2000) (config_timeout config);
              maxRetries := default (length (config_nodes config) * 2)%nat
                                    (config_maxRetries config);
              baseRetryDelay := default (JS.of_Z 500) (config_baseRetryDelay config);
              maxRetryDelay := default (JS.of_Z 5000) (config_maxRetryDelay config) |}.

(** The wrapper and the machine it runs on. *)
Record state (W : Type) : Type := {
  self : t;
  machine_of : machine W;
}.
Arguments self {W} _.
Arguments machine_of {W} _.

Section Methods.
Context {W : Type} `{Host W}.

Definition get_self : M (state W) t := fun s => (Normal (self s), s).

Definition set_self (f : t -> t) : M (state W) unit :=
  fun s => (Normal tt, {| self := f (self s); machine_of := machine_of s |}).

(** A computation of the machine, run by the wrapper. *)
Definition on_machine {A} (m : M (machine W) A) : M (state W) A :=
  fun s => let '(r, k) := m (machine_of s) in
           (r, {| self := self s; machine_of := k |}).

Definition with_chain (c : option Chain) (this : t) : t :=
  {| chain := c; nodes := nodes this;
     currentNodeIndex := currentNodeIndex this;
     timeout := timeout this; maxRetries := maxRetries this;
     baseRetryDelay := baseRetryDelay this;
     maxRetryDelay := maxRetryDelay this |}.

Definition with_index (i : nat) (this : t) : t :=
  {| chain := chain this; nodes := nodes this;
     currentNodeIndex := i;
     timeout := timeout this; maxRetries := maxRetries this;
     baseRetryDelay := baseRetryDelay this;
     maxRetryDelay := maxRetryDelay this |}.

(** [createHiveChain] of the library is taken to succeed. *)
Definition initialize : M (state W) unit :=
  this ← get_self;
  set_self (with_chain (Some {| endpointUrl := nodes this !! currentNodeIndex this;
                                apiTimeout := timeout this |})).

Definition getChain : M (state W) Chain :=
  this ← get_self;
  match chain this with
  | None => throw (new_Error "Chain not initialized. Call initialize() first.")
  | Some c => mret c
  end.

(** The node array is not empty (the constructor sees to it), so that
    the remainder is the one of the integers. *)
Definition switchToNextNode : M (state W) unit :=
  this ← get_self;
  let next := ((currentNodeIndex this + 1) mod length (nodes this))%nat in
  set_self (with_index next);;
  this ← get_self;
  let newNode := nodes this !! currentNodeIndex this in
  match chain this with
  | None => throw (new_Error "Chain not initialized")
  | Some c =>
      set_self (with_chain (Some {| endpointUrl := newNode;
                                    apiTimeout := apiTimeout c |}))
  end.

(** [await operation(this.chain)], recorded in the trace with the
    endpoint of the chain at that moment. *)
Definition run_operation
    (operation : option Chain -> W -> outcome value * W)
    : M (state W) value :=
  this ← get_self;
  on_machine (fun k =>
    let '(r, w) := operation (chain this) (world k) in
    (r, {| world := w;
           trace := trace k ++ [EvOperation (chain this ≫= endpointUrl) r] |})).

Section executeWithFailover.
Context (operation : option Chain -> W -> outcome value * W).

(** [throw lastError], [lastError] being [undefined] as long as no
    attempt has failed. *)
Definition rethrow (lastError : option thrown) : thrown :=
  default thrown_undefined lastError.

(** The [while] loop when the counter is [attempt], [remaining] being
    [maxRetries - attempt]: the test [attempt < maxRetries] fails
    exactly when it is 0. *)
Fixpoint executeWithFailover_from (remaining attempt : nat)
    (lastError : option thrown) : M (state W) value :=
  match remaining with
  | O => throw (rethrow lastError)
  | S remaining' =>
      r ← try (run_operation operation);
      match r with
      | Normal result => mret result
      | Abrupt error =>
          if negb (isRecoverableChainError error) then throw error
          else
            let attempt := S attempt in
            this ← get_self;
            (if (attempt <? maxRetries this)%nat then
               switchToNextNode;;
               random ← on_machine (host Math_random);
               let delay :=
                 JS.Math_min
                   (JS.add (JS.mul (baseRetryDelay this)
                                   (JS.Math_pow (JS.of_Z 2) attempt))
                           (JS.mul random (JS.of_Z 100)))
                   (maxRetryDelay this) in
               on_machine (sleep delay)
             else mret tt);;
            executeWithFailover_from remaining' attempt (Some error)
      end
  end.

Definition executeWithFailover : M (state W) value :=
        this ← get_self;
        match chain this with
        | None => throw (new_Error "Chain not initialized. Call initialize() first.")
        | Some _ => executeWithFailover_from (maxRetries this) 0 None
        end.
End executeWithFailover.
End Methods.

End HiveChainWithFailover.

(** * The readings of the specification

    What the specification says in its own words, for the properties below
    to compare with the code. *)









(** The sum of a list of numbers, from the left. *)
Definition sum (l : list number) : number := fold_left JS.add l (JS.of_Z 0).


(** The plain arithmetic mean. *)
Definition arithmetic_mean (ps : list number) : number :=
  JS.div (sum ps) (JS.of_nat (length ps)).





(** A number is positive. *)
Definition positive (x : number) : Prop :=
  x = JS.PosInf \/ exists q, x = JS.Fin q /\ (0 < q)%Qc.

(** No configured weight is negative. *)
Definition weights_not_negative {W} (this : PriceAggregator.t W) : Prop :=
  forall key cfg w,
    PriceAggregator.providersConfig this !! key = Some cfg ->
    config_weight cfg = Some w ->
    JS.ltb w (JS.of_Z 0) = false.

(** An entry of a round is valid: a success carries a price that passed the
    validity check, hence a positive number; a failure carries the price 0
    and an error message. *)
Definition valid_entry (ep : ExchangePrice) : Prop :=
  if success ep
  then isValidPrice (VNum (price ep)) = true /\ positive (price ep)
  else price ep = JS.of_Z 0 /\ is_Some (error ep).

(** The fetch of a provider fails, whatever the state of the host; a missing
    provider counts as failing. *)
Definition always_fails {W} (provider : @slot W) : Prop :=
  match provider with
  | Some p => forall w, exists e w', PriceProvider.getHivePrice p w = (Abrupt e, w')
  | None => True
  end.

(** The entry the detailed listing holds for a provider: under its name,
    either a success with the very price a fetch of the provider returned, or
    a failure with the price 0 and the message of the error a fetch threw;
    for a missing provider, the stock entry of a rejected promise. *)
Definition detailed_entry {W} (provider : @slot W) (ep : ExchangePrice) : Prop :=
  match provider with
  | Some p =>
      exchange ep = PriceProvider.exchangeName p /\
      ((success ep = true /\ error ep = None /\
        exists w w', PriceProvider.getHivePrice p w = (Normal (price ep), w')) \/
       (success ep = false /\ price ep = JS.of_Z 0 /\
        exists e w w', PriceProvider.getHivePrice p w = (Abrupt e, w') /\
                       error ep = Some (message_or_unknown e)))
  | None => ep = failed "Unknown" "Promise rejected"
  end.






(** The rounds and the sleeps of a trace, in order. *)
Definition is_control (e : event) : bool :=
  match e with
  | EvRound | EvSleep _ => true
  | EvCall _ _ | EvOperation _ _ => false
  end.

Definition control (t : list event) : list event :=
  filter (fun e => is_control e = true) t.

(** The number of rounds in a trace. *)
Definition rounds (t : list event) : nat :=
  length (filter (fun e => e = EvRound) t).

(** The rounds of an aggregation that never sees a success: the rounds 1 to
    [n], each but the last followed by a sleep of 2000 ms times its
    number. *)
Definition round_schedule (n : nat) : list event :=
  flat_map (fun attempt =>
              if (attempt <? n)%nat
              then [EvRound; EvSleep (JS.mul (JS.of_Z 2000) (JS.of_nat attempt))]
              else [EvRound])
           (seq 1 n).

(** Every round yields zero successful prices. *)
Definition round_without_success {W} `{Host W} (this : PriceAggregator.t W) : Prop :=
  forall s l s',
    PriceAggregator.fetchPricesWithTimeout this s = (Normal l, s') ->
    filter (fun ep => success ep = true) l = [].

(** The state of a wrapper after an attempt that completed with [r] and
    left the host in [w]: the wrapper untouched, the attempt in the trace. *)
Definition attempted {W} (s : HiveChainWithFailover.state W) (r : outcome value)
    (w : W) : HiveChainWithFailover.state W :=
  {| HiveChainWithFailover.self := HiveChainWithFailover.self s;
     HiveChainWithFailover.machine_of :=
       {| world := w;
          trace := trace (HiveChainWithFailover.machine_of s) ++
                   [EvOperation
                      (HiveChainWithFailover.chain (HiveChainWithFailover.self s)
                         ≫= HiveChainWithFailover.endpointUrl) r] |} |}.

(** The attempts and the sleeps of a trace of the failover wrapper. *)
Definition is_operation (e : event) : bool :=
  match e with EvOperation _ _ => true | _ => false end.

Definition is_sleep (e : event) : bool :=
  match e with EvSleep _ => true | _ => false end.

Definition operations (t : list event) : nat :=
  length (filter (fun e => is_operation e = true) t).

Definition sleeps (t : list event) : nat :=
  length (filter (fun e => is_sleep e = true) t).


(** ** Scenarios *)

(** A context, and a rate-limit message that asks to retry at once. *)
Definition binance_request : DomainAwareErrorHandler.Context :=
  {| DomainAwareErrorHandler.ctx_operation := "http_request";
     DomainAwareErrorHandler.ctx_exchangeName := Some "Binance";
     DomainAwareErrorHandler.ctx_maxRetries := Some 3%nat |}.


(** A host whose timers never win a race and whose random draws are 0. *)
#[global] Instance quiet_host {W} : Host W :=
  {| timer_wins := fun _ w => (false, w);
     Math_random := fun w => (JS.of_Z 0, w) |}.

Definition succeeded (name : string) (p : number) : ExchangePrice :=
  {| exchange := name; price := p; success := true; error := None |}.

Definition weighted (name : string) (w : number) : ProviderConfig :=
  {| name := name; enabled := true; config_weight := Some w;
     config_timeout := None; config_maxRetries := None |}.

(** A provider that always returns the same price. *)
Definition steady (name : string) (p : number) : @slot unit :=
  Some (PriceProvider.new name "" (fun w => (Normal p, w))).

(** A provider whose fetch always fails. *)
Definition broken (name : string) : @slot unit :=
  Some (PriceProvider.new name "" (fun w => (Abrupt (new_Error "fetch failed"), w))).

Definition aggregator (ps : list (@slot unit)) (config : list ProviderConfig)
    : PriceAggregator.t unit :=
  {| PriceAggregator.providers := ps;
     PriceAggregator.providersConfig := PriceAggregator.index_config config;
     PriceAggregator.timeout := JS.of_Z 5000;
     PriceAggregator.maxRetries := 3 |}.

(** Two exchanges at 9 and 12, with the weights 2 and 1. *)
Definition two_to_one : PriceAggregator.t unit :=
  aggregator [steady "Binance" (JS.of_Z 9); steady "MEXC" (JS.of_Z 12)]
             [weighted "binance" (JS.of_Z 2); weighted "mexc" (JS.of_Z 1)].

Definition two_to_one_prices : list ExchangePrice :=
  [succeeded "Binance" (JS.of_Z 9); succeeded "MEXC" (JS.of_Z 12)].



(** Two exchanges with the weights 2 and -2. *)
Definition opposite_weights : PriceAggregator.t unit :=
  aggregator [steady "Binance" (JS.of_Z 9); steady "MEXC" (JS.of_Z 12)]
             [weighted "binance" (JS.of_Z 2); weighted "mexc" (JS.of_Z (-2))].

(** One exchange, out of order. *)
Definition all_down : PriceAggregator.t unit :=
  aggregator [broken "Binance"] [weighted "binance" (JS.of_Z 1)].




(** The wrapper of the publisher on its three default nodes, initialised:
    [maxRetries] is twice their number, the current node the first. *)
Definition node_a : string := "https://api.hive.blog".
Definition node_b : string := "https://api.deathwing.me".
Definition node_c : string := "https://api.openhive.network".

Definition three_nodes : HiveChainWithFailover.Config :=
  {| HiveChainWithFailover.config_nodes := [node_a; node_b; node_c];
     HiveChainWithFailover.config_timeout := Some (JS.of_Z 3000);
     HiveChainWithFailover.config_maxRetries := Some 6%nat;
     HiveChainWithFailover.config_baseRetryDelay := None;
     HiveChainWithFailover.config_maxRetryDelay := None |}.

Definition wrapper_at (index : nat) (endpoint : string) : HiveChainWithFailover.t :=
  {| HiveChainWithFailover.chain :=
       Some {| HiveChainWithFailover.endpointUrl := Some endpoint;
               HiveChainWithFailover.apiTimeout := JS.of_Z 3000 |};
     HiveChainWithFailover.nodes := [node_a; node_b; node_c];
     HiveChainWithFailover.currentNodeIndex := index;
     HiveChainWithFailover.timeout := JS.of_Z 3000;
     HiveChainWithFailover.maxRetries := 6;
     HiveChainWithFailover.baseRetryDelay := JS.of_Z 500;
     HiveChainWithFailover.maxRetryDelay := JS.of_Z 5000 |}.

Definition started (this : HiveChainWithFailover.t) : HiveChainWithFailover.state unit :=
  {| HiveChainWithFailover.self := this;
     HiveChainWithFailover.machine_of := {| world := tt; trace := [] |} |}.

Definition request_timeout : thrown :=
  ErrorObject "WaxRequestTimeoutError" "Request timed out".

Definition malformed : thrown := new_Error "Missing required field: owner".

(** An operation that times out on the first two nodes and succeeds on the
    third; and one that is refused whatever the node. *)
Definition down_on_a_and_b (c : option HiveChainWithFailover.Chain) (w : unit)
    : outcome value * unit :=
  match c ≫= HiveChainWithFailover.endpointUrl with
  | Some url =>
      if bool_decide (url = node_a) || bool_decide (url = node_b)
      then (Abrupt request_timeout, w)
      else (Normal (VStr "transaction-id"), w)
  | None => (Abrupt request_timeout, w)
  end.

Definition always_malformed (c : option HiveChainWithFailover.Chain) (w : unit)
    : outcome value * unit :=
  (Abrupt malformed, w).

(** An operation that times out on every node. *)
Definition always_down (c : option HiveChainWithFailover.Chain) (w : unit)
    : outcome value * unit :=
  (Abrupt request_timeout, w).

(** Three exchanges that agree on 10, and three around it, all with the
    weight 1. *)
Definition unanimous : PriceAggregator.t unit :=
  aggregator [steady "Binance" (JS.of_Z 10); steady "MEXC" (JS.of_Z 10);
              steady "Huobi" (JS.of_Z 10)]
             [weighted "binance" (JS.of_Z 1); weighted "mexc" (JS.of_Z 1);
              weighted "huobi" (JS.of_Z 1)].

Definition close_by : PriceAggregator.t unit :=
  aggregator [steady "Binance" (JS.Fin (Q2Qc (9999 # 1000)));
              steady "MEXC" (JS.of_Z 10);
              steady "Huobi" (JS.Fin (Q2Qc (10002 # 1000)))]
             [weighted "binance" (JS.of_Z 1); weighted "mexc" (JS.of_Z 1);
              weighted "huobi" (JS.of_Z 1)].

(** * The rest of the sources *)

(** ** Typed errors as they are thrown and inspected ([types/errors]) *)

(** The name of the class of a typed error, which the constructor of
    [BaseAppError] also stores as the [name] of the error. *)
Definition class_name (c : ErrorClass) : string :=
  match c with
  | PriceNetworkError => "PriceNetworkError"
  | PriceAPIError => "PriceAPIError"
  | PriceValidationError => "PriceValidationError"
  end.

(** A typed error as a [catch] clause receives it: an instance of [Error]
    under the name of its class, with its message. *)
Definition thrown_of (e : BaseAppError) : thrown :=
  ErrorObject (class_name (class e)) (message e).

Module Errors.

(** An [unknown] value handed to the helpers: an instance of a subclass of
    [BaseAppError], or anything else. *)
Inductive unknown : Type :=
  | AppError (e : BaseAppError)
  | NotAppError (e : thrown).

(** [readonly domain = "PRICE_FETCHING"], on every class of the price
    domain. *)
Definition domain (e : BaseAppError) : string := "PRICE_FETCHING".

Definition isAppError (error : unknown) : bool :=
  match error with
  | AppError _ => true
  | NotAppError _ => false
  end.

Definition getErrorDomain (error : unknown) : option string :=
  match error with
  | AppError e => Some (domain e)
  | NotAppError _ => None
  end.

Definition isRetryableError (error : unknown) : bool :=
  match error with
  | AppError e => isRetryable e
  | NotAppError _ => false
  end.

Definition getRetryDelay (error : unknown) : number :=
  match error with
  | AppError e => getRetryDelay e
  | NotAppError _ => JS.of_Z 0
  end.

Definition isPriceDomainError (error : unknown) : bool :=
  match error with
  | AppError e => bool_decide (domain e = "PRICE_FETCHING")
  | NotAppError _ => false
  end.

End Errors.

(** ** The retry loop of the error handler ([utils/error-handlers]) *)

Section executeWithRetry.
Context {W : Type} {A : Type}.
Context (operation : M (machine W) A) (context : DomainAwareErrorHandler.Context).

(** [context.maxRetries || 3] *)
Definition retry_budget : nat :=
  match DomainAwareErrorHandler.ctx_maxRetries context with
  | Some (S n) => S n
  | Some O | None => 3
  end.

(** [lastError || new Error(...)]: a typed error is an object, hence
    truthy. *)
Definition last_or_generic (lastError : option BaseAppError) : thrown :=
  match lastError with
  | Some e => thrown_of e
  | None => new_Error "Operation failed without proper error"
  end.

(** The [for] loop from its iteration [attempt] on, [remaining] being the
    number of iterations left, [maxRetries + 1 - attempt]. A [break] leaves
    the loop for the [throw] that follows it. *)
Fixpoint executeWithRetry_from (remaining attempt : nat)
    (lastError : option BaseAppError) : M (machine W) A :=
  match remaining with
  | O => throw (last_or_generic lastError)
  | S remaining' =>
      r ← try operation;
      match r with
      | Normal v => mret v
      | Abrupt error =>
          let typedError := DomainAwareErrorHandler.createTypedError error context in
          if negb (isRetryable typedError) || bool_decide (attempt = retry_budget) then
            throw (last_or_generic (Some typedError))
          else
            let delay := getRetryDelay typedError in
            (if JS.gtb delay (JS.of_Z 0) then sleep delay else mret tt);;
            executeWithRetry_from remaining' (S attempt) (Some typedError)
      end
  end.

Definition executeWithRetry : M (machine W) A :=
  executeWithRetry_from retry_budget 1 None.

End executeWithRetry.

(** ** HTTP requests ([types/price-provider]) *)

(** [parseInt(s, 10)]: leading white space is skipped, then a sign and the
    longest run of decimal digits are read; [NaN] when there is no digit. *)
Definition parseInt (s : string) : number :=
  let s1 := snd (Str.span Str.is_space s) in
  let '(negative, s2) :=
    match s1 with
    | String "-" r => (true, r)
    | String "+" r => (false, r)
    | _ => (false, s1)
    end in
  match Str.span Str.is_digit s2 with
  | (EmptyString, _) => JS.NaN
  | (ds, _) =>
      let n := Str.digits_value 0 ds in
      JS.of_Z (if negative : bool then - n else n)
  end.

(** A value decoded from JSON. An object is the list of its properties, each
    name once. *)
#[local] Unset Elimination Schemes.
Inductive json : Type :=
  | JNull
  | JBool (b : bool)
  | JNum (n : number)
  | JStr (s : string)
  | JArr (items : list json)
  | JObj (fields : list (string * json)).
#[local] Set Elimination Schemes.

(** What the sources read of a [Response]: [ok], [status], [statusText],
    [headers.get("Retry-After")] and what [json()] settles with. *)
Record Response : Type := {
  ok : bool;
  status : number;
  statusText : string;
  retry_after_header : option string;
  body : outcome json;
}.

(** What a promise rejects with, and the [name] of it when it is an
    instance of [Error]. *)
Record rejection : Type := {
  reason : thrown;
  reason_name : string;
}.

(** The network of the host: [fetch(url, { signal, headers })], the signal
    being aborted by a timer of [ms] milliseconds. *)
Class Network (W : Type) : Type := {
  fetch : string -> number -> W -> completion rejection Response * W;
}.

(** The rejection of a [throw] of a typed error. *)
Definition rejected_with (e : BaseAppError) : rejection :=
  {| reason := thrown_of e; reason_name := class_name (class e) |}.

Definition shown_response (r : completion rejection Response) : outcome value :=
  match r with
  | Normal response => Normal (VNum (status response))
  | Abrupt rej => Abrupt (reason rej)
  end.

Definition request_context (op exchange : string) (status : option number)
    : ContextArg :=
  {| arg_operation := Some op;
     arg_exchangeName := exchange;
     arg_httpStatus := status;
     arg_retryAfter := None;
     arg_invalidData := None |}.

Section makeRequest.
Context {V W : Type} `{Network W} (this : PriceProvider.t V).

(** The typed time-out of the [catch] clause. *)
Definition timeout_error : BaseAppError :=
  new_PriceNetworkError
    ("Request timeout after " +:+
     Number_toString (PriceProvider.requestTimeout this) +:+ "ms")
    NETWORK_TIMEOUT
    (request_context "http_request" (PriceProvider.exchangeName this) None)
    None.

(** [await fetch(url, ...)], recorded in the trace under the URL with the
    status of the response. *)
Definition await_fetch (url : string) : M (machine W) (completion rejection Response) :=
  fun s =>
    let '(r, w) := fetch url (PriceProvider.requestTimeout this) (world s) in
    (Normal r, {| world := w; trace := trace s ++ [EvCall url (shown_response r)] |}).

(** The outer [try] block of the callback of [makeRequest], with its
    completion. *)
Definition request_block (url : string) : M (machine W) (completion rejection json) :=
  settled ← await_fetch url;
  match settled with
  | Abrupt rej => mret (Abrupt rej)
  | Normal response =>
      let exchangeName := PriceProvider.exchangeName this in
      if negb (ok response) then
        if JS.strict_eq (status response) (JS.of_Z 429) then
          let retryAfter := retry_after_header response in
          let retryAfterSeconds :=
            match retryAfter with
            | Some h => if bool_decide (h = "") then None else Some (parseInt h)
            | None => None
            end in
          let errorContext :=
            {| arg_operation := Some "http_request";
               arg_exchangeName := exchangeName;
               arg_httpStatus := Some (status response);
               arg_retryAfter := retryAfterSeconds;
               arg_invalidData := None |} in
          mret (Abrupt (rejected_with
                  (new_PriceAPIError "Rate limit exceeded" API_RATE_LIMITED
                     errorContext None)))
        else if JS.geb (status response) (JS.of_Z 500) then
          mret (Abrupt (rejected_with
                  (new_PriceAPIError ("Server error: " +:+ statusText response)
                     API_SERVER_ERROR
                     (request_context "http_request" exchangeName
                        (Some (status response))) None)))
        else if JS.strict_eq (status response) (JS.of_Z 404) then
          mret (Abrupt (rejected_with
                  (new_PriceAPIError ("Resource not found: " +:+ url)
                     API_NOT_FOUND
                     (request_context "http_request" exchangeName
                        (Some (status response))) None)))
        else
          mret (Abrupt (rejected_with
                  (new_PriceAPIError
                     ("HTTP error: " +:+ Number_toString (status response) +:+ " " +:+
                      statusText response)
                     API_INVALID_RESPONSE
                     (request_context "http_request" exchangeName
                        (Some (status response))) None)))
      else
        match body response with
        | Normal v => mret (Normal v)
        | Abrupt parseError =>
            mret (Abrupt (rejected_with
                    (new_PriceAPIError "Invalid JSON response" API_INVALID_RESPONSE
                       (request_context "response_parsing" exchangeName None)
                       (if instanceof_Error parseError then Some parseError else None))))
        end
  end.

(** The callback: the block and its [catch] clause, which turns an abort
    into a typed time-out and throws anything else again. *)
Definition request_once (url : string) : M (machine W) json :=
  r ← request_block url;
  match r with
  | Normal v => mret v
  | Abrupt error =>
      if instanceof_Error (reason error) && bool_decide (reason_name error = "AbortError")
      then throw (thrown_of timeout_error)
      else throw (reason error)
  end.

Definition request_settings : DomainAwareErrorHandler.Context :=
  {| DomainAwareErrorHandler.ctx_operation := "http_request";
     DomainAwareErrorHandler.ctx_exchangeName := Some (PriceProvider.exchangeName this);
     DomainAwareErrorHandler.ctx_maxRetries := Some (PriceProvider.maxRetries this) |}.

Definition makeRequest (url : string) : M (machine W) json :=
  executeWithRetry (request_once url) request_settings.

End makeRequest.


(** ** Predicates and scenarios for the requests *)

(** The calls recorded in a trace. *)
Definition is_call (e : event) : bool :=
  match e with EvCall _ _ => true | _ => false end.

Definition calls (t : list event) : nat :=
  length (filter (fun e => is_call e = true) t).

(** Every sleep of a trace lasts [ms] milliseconds. *)
Definition sleeps_of (ms : number) (t : list event) : Prop :=
  Forall (fun ev => is_sleep ev = true -> ev = EvSleep ms) t.

(** Every run of the operation makes one call and does not sleep. *)
Definition one_call {W A} (operation : M (machine W) A) : Prop :=
  forall s,
    calls (trace (operation s).2) = S (calls (trace s)) /\
    sleeps (trace (operation s).2) = sleeps (trace s).

(** The state of the machine after a fetch of [url] that settled with [r]
    and left the host in [w]. *)
Definition fetched {W} (s : machine W) (url : string)
    (r : completion rejection Response) (w : W) : machine W :=
  {| world := w; trace := trace s ++ [EvCall url (shown_response r)] |}.

(** The budget of [makeRequest]: [maxRetries] of the provider, 3 when it
    is 0. *)
Definition request_budget {V} (this : PriceProvider.t V) : nat :=
  if decide (PriceProvider.maxRetries this = 0) then 3
  else PriceProvider.maxRetries this.

(** Every fetch of the URL is aborted by its timer. *)
Definition always_aborted {W} `{Network W} (url : string) (ms : number) : Prop :=
  forall w, exists rej w',
    fetch url ms w = (Abrupt rej, w') /\
    instanceof_Error (reason rej) = true /\
    reason_name rej = "AbortError".



(** A provider with the defaults of its class, and the ticker it asks. *)
Definition mexc : PriceProvider.t unit :=
  PriceProvider.new "MEXC" "https://api.mexc.com"
    (fun w => (Abrupt (new_Error "unused"), w)).

Definition mexc_ticker : string :=
  "https://api.mexc.com/api/v3/ticker/price?symbol=HIVEUSDT".

(** A network that answers every request with the status 429 and asks to
    come back after 30 seconds; and one on which every request is aborted
    by its timer. *)
Definition too_many_requests : Response :=
  {| ok := false;
     status := JS.of_Z 429;
     statusText := "Too Many Requests";
     retry_after_header := Some "30";
     body := Normal JNull |}.

Definition throttling : Network unit :=
  {| fetch := fun _ _ w => (Normal too_many_requests, w) |}.

Definition abort_error : rejection :=
  {| reason := ErrorObject "DOMException" "This operation was aborted";
     reason_name := "AbortError" |}.

Definition unresponsive : Network unit :=
  {| fetch := fun _ _ w => (Abrupt abort_error, w) |}.

(** ** Decoded responses as the providers read them *)

Module Json.

(** A value read from a decoded response: [None] is [undefined]. *)
Definition t : Type := option json.

(** [arr.join(",")] on strings. *)
Fixpoint join (l : list string) : string :=
  match l with
  | [] => ""
  | [s] => s
  | s :: l' => s +:+ "," +:+ join l'
  end.

(** [String(v)]: an array is the join of its elements, [null] counting as
    the empty string; an object is ["[object Object]"]. *)
Fixpoint toString (v : json) : string :=
  match v with
  | JNull => "null"
  | JBool true => "true"
  | JBool false => "false"
  | JNum n => Number_toString n
  | JStr s => s
  | JArr items =>
      join (map (fun x => match x with JNull => "" | _ => toString x end) items)
  | JObj _ => "[object Object]"
  end.

Definition String_of (v : t) : string :=
  match v with
  | Some j => toString j
  | None => "undefined"
  end.

(** [parseFloat(v)], which converts its argument to a string first. *)
Definition parseFloat (v : t) : number := Str.parseFloat (String_of v).

(** ToBoolean. *)
Definition truthy (v : t) : bool :=
  match v with
  | None | Some JNull => false
  | Some (JBool b) => b
  | Some (JNum n) => JS.truthy n
  | Some (JStr s) => negb (bool_decide (s = ""))
  | Some (JArr _) | Some (JObj _) => true
  end.

(** [v === s] for a string [s]. *)
Definition is_string (v : t) (s : string) : bool :=
  match v with
  | Some (JStr s') => bool_decide (s' = s)
  | _ => false
  end.

(** The own property [name] of an object. *)
Fixpoint own (fields : list (string * json)) (name : string) : t :=
  match fields with
  | [] => None
  | (k, v) :: fields' => if bool_decide (k = name) then Some v else own fields' name
  end.

Definition TypeError_read (what name : string) : thrown :=
  ErrorObject "TypeError"
    ("Cannot read properties of " +:+ what +:+ " (reading '" +:+ name +:+ "')").

(** [v.name], for a name that no prototype defines: the own property of an
    object, [undefined] on any other value but [null] and [undefined], on
    which the access throws. *)
Definition get (v : t) (name : string) : outcome t :=
  match v with
  | None => Abrupt (TypeError_read "undefined" name)
  | Some JNull => Abrupt (TypeError_read "null" name)
  | Some (JObj fields) => Normal (own fields name)
  | Some _ => Normal None
  end.

(** [v?.name], for such a name. *)
Definition get_opt (v : t) (name : string) : t :=
  match v with
  | Some (JObj fields) => own fields name
  | _ => None
  end.

(** [v?.[0]]: the first element of an array, the first character of a
    string, the property ["0"] of an object. *)
Definition first_opt (v : t) : t :=
  match v with
  | Some (JArr items) => head items
  | Some (JStr (String c _)) => Some (JStr (String c EmptyString))
  | Some (JObj fields) => own fields "0"
  | _ => None
  end.

End Json.

(** ** The retry helper of a provider, on any asynchronous function *)

Section fetchWithRetry_of.
Context {V W A : Type} (this : PriceProvider.t V) (fetchFn : M (machine W) A).

(** The loop of [fetchWithRetry], as in [PriceProvider.fetchWithRetry_from],
    the function being any computation of the machine. *)
Fixpoint fetchWithRetry_loop (remaining attempt : nat)
    (lastError : option thrown) : M (machine W) A :=
  match remaining with
  | O => throw (PriceProvider.surfaced this lastError)
  | S remaining' =>
      r ← try fetchFn;
      match r with
      | Normal v => mret v
      | Abrupt error =>
          (if (attempt <? PriceProvider.retryAttempts this)%nat then
             let delay :=
               JS.mul (PriceProvider.retryDelay this)
                      (JS.Math_pow (JS.of_Z 2) (attempt - 1)) in
             sleep delay
           else mret tt);;
          fetchWithRetry_loop remaining' (S attempt) (Some error)
      end
  end.

Definition fetchWithRetry_of : M (machine W) A :=
  fetchWithRetry_loop (PriceProvider.retryAttempts this) 1 None.

End fetchWithRetry_of.

(** [this.validatePriceData(data, symbol)] of a provider, the typed error
    being thrown. *)
Definition provider_validatePriceData {V W} (this : PriceProvider.t V)
    (data : value) (symbol : string) : M (machine W) number :=
  match validatePriceData data symbol (PriceProvider.exchangeName this) with
  | Normal p => mret p
  | Abrupt e => throw (thrown_of e)
  end.

(** ** The providers ([providers]) *)

Module MEXCPriceProvider.

Definition exchangeName : string := "MEXC".
Definition baseUrl : string := "https://api.mexc.com".

Section Methods.
Context {V W : Type} `{Network W} (this : PriceProvider.t V).

(** The URL of the ticker of a symbol. *)
Definition ticker (symbol : string) : string :=
  PriceProvider.baseUrl this +:+ "/api/v3/ticker/price?symbol=" +:+ symbol.

Definition fetchPrice (symbol : string) : M (machine W) number :=
  let url := ticker symbol in
  data ← makeRequest this url;
  raw ← lift (Json.get (Some data) "price");
  let price := Json.parseFloat raw in
  mret (roundToThreeDecimals price).

Definition getHivePrice : M (machine W) number :=
  fetchWithRetry_of this (fetchPrice "HIVEUSDT").

End Methods.
End MEXCPriceProvider.

Module BinancePriceProvider.

Definition exchangeName : string := "Binance".
Definition baseUrl : string := "https://data-api.binance.vision".

Section Methods.
Context {V W : Type} `{Network W} (this : PriceProvider.t V).

(** The URL of the ticker of a symbol. *)
Definition ticker (symbol : string) : string :=
  PriceProvider.baseUrl this +:+ "/api/v3/ticker/price?symbol=" +:+ symbol.

Definition fetchPrice (symbol : string) : M (machine W) number :=
  let url := ticker symbol in
  data ← makeRequest this url;
  raw ← lift (Json.get (Some data) "price");
  mret (Json.parseFloat raw).

(** The values of the fulfilled results, in order. *)
Definition fulfilled {A} (results : list (outcome A)) : list A :=
  omap (fun result => match result with
                      | Normal v => Some v
                      | Abrupt _ => None
                      end) results.

Definition getHivePrice : M (machine W) number :=
  results ← allSettled (fun symbol => fetchWithRetry_of this (fetchPrice symbol))
                       ["HIVEUSDT"; "HIVEUSDC"];
  let successfulPrices := fulfilled results in
  match successfulPrices with
  | [] =>
      throw (new_Error ("Failed to fetch any HIVE prices from " +:+
                        PriceProvider.exchangeName this))
  | [p] => mret (roundToThreeDecimals p)
  | _ =>
      let average :=
        JS.div (fold_left (fun sum price => JS.add sum price) successfulPrices (JS.of_Z 0))
               (JS.of_nat (length successfulPrices)) in
      mret (roundToThreeDecimals average)
  end.

End Methods.
End BinancePriceProvider.

Module HuobiPriceProvider.

Definition exchangeName : string := "Huobi".
Definition baseUrl : string := "https://api.huobi.pro".

Section Methods.
Context {V W : Type} `{Network W} (this : PriceProvider.t V).

Definition extractLatestTradePrice (resp : json) : outcome number :=
  let latestTrade :=
    Json.first_opt (Json.get_opt (Json.first_opt (Json.get_opt (Some resp) "data")) "data") in
  match Json.truthy latestTrade, Json.get_opt latestTrade "price" with
  | true, Some (JNum price) => Normal price
  | _, _ => Abrupt (new_Error "No valid trade price found in Huobi response")
  end.

(** The URL of the latest trades. *)
Definition trades : string :=
  PriceProvider.baseUrl this +:+ "/market/history/trade?symbol=hiveusdt".

Definition getHivePrice : M (machine W) number :=
  let url := trades in
  data ← makeRequest this url;
  status ← lift (Json.get (Some data) "status");
  if negb (Json.is_string status "ok") then
    throw (new_Error ("Huobi API error: status " +:+ Json.String_of status))
  else
    rawPrice ← lift (extractLatestTradePrice data);
    price ← provider_validatePriceData this (VNum rawPrice) "HIVEUSDT";
    mret (roundToThreeDecimals price).

End Methods.
End HuobiPriceProvider.

(** ** Scenarios for the providers *)

(** The Huobi provider with the defaults of its class, and a network that
    answers every request with one trade at 0.2345. *)
Definition huobi : PriceProvider.t unit :=
  PriceProvider.new HuobiPriceProvider.exchangeName HuobiPriceProvider.baseUrl
    (fun w => (Abrupt (new_Error "unused"), w)).

Definition one_trade : Response :=
  {| ok := true;
     status := JS.of_Z 200;
     statusText := "OK";
     retry_after_header := None;
     body := Normal
       (JObj [("status", JStr "ok");
              ("data", JArr [JObj [("data",
                 JArr [JObj [("price", JNum (JS.Fin (Q2Qc (2345 # 10000))))]])]])]) |}.

Definition trading : Network unit :=
  {| fetch := fun _ _ w => (Normal one_trade, w) |}.

(** The Binance provider with the defaults of its class, and a network that
    quotes 0.2340 for the first pair and 0.2350 for the other. *)
Definition binance : PriceProvider.t unit :=
  PriceProvider.new BinancePriceProvider.exchangeName BinancePriceProvider.baseUrl
    (fun w => (Abrupt (new_Error "unused"), w)).

Definition ticker_quote (symbol price : string) : Response :=
  {| ok := true;
     status := JS.of_Z 200;
     statusText := "OK";
     retry_after_header := None;
     body := Normal (JObj [("symbol", JStr symbol); ("price", JStr price)]) |}.

Definition quoting : Network unit :=
  {| fetch := fun url _ w =>
       if bool_decide (url = BinancePriceProvider.ticker binance "HIVEUSDT")
       then (Normal (ticker_quote "HIVEUSDT" "0.2340"), w)
       else (Normal (ticker_quote "HIVEUSDC" "0.2350"), w) |}.

(** ** Predicates for the wrapper and the aggregator *)

(** The wrapper is initialised and its chain talks to the node at the
    current index, which is one of the configured nodes. *)
Definition on_a_node (this : HiveChainWithFailover.t) : Prop :=
  exists c url,
    HiveChainWithFailover.chain this = Some c /\
    HiveChainWithFailover.endpointUrl c = Some url /\
    HiveChainWithFailover.nodes this !! HiveChainWithFailover.currentNodeIndex this
    = Some url.

(** Every sleep of a trace lasts at most [ms] milliseconds, or [NaN]. *)
Definition sleeps_at_most (ms : number) (t : list event) : Prop :=
  Forall (fun ev => match ev with
                    | EvSleep d => d = JS.NaN \/ JS.leb d ms = true
                    | _ => True
                    end) t.

(** What a call of the wrapper keeps between two of its states: the wrapper
    on one of its nodes, its settings, and no wait longer than
    [maxRetryDelay]. *)
Definition kept {W} (s s' : HiveChainWithFailover.state W) : Prop :=
  on_a_node (HiveChainWithFailover.self s') /\
  HiveChainWithFailover.nodes (HiveChainWithFailover.self s')
  = HiveChainWithFailover.nodes (HiveChainWithFailover.self s) /\
  HiveChainWithFailover.maxRetries (HiveChainWithFailover.self s')
  = HiveChainWithFailover.maxRetries (HiveChainWithFailover.self s) /\
  HiveChainWithFailover.baseRetryDelay (HiveChainWithFailover.self s')
  = HiveChainWithFailover.baseRetryDelay (HiveChainWithFailover.self s) /\
  HiveChainWithFailover.maxRetryDelay (HiveChainWithFailover.self s')
  = HiveChainWithFailover.maxRetryDelay (HiveChainWithFailover.self s) /\
  exists t,
    trace (HiveChainWithFailover.machine_of s')
    = (trace (HiveChainWithFailover.machine_of s) ++ t)%list /\
    sleeps_at_most
      (HiveChainWithFailover.maxRetryDelay (HiveChainWithFailover.self s)) t.



(** No round yields a final price: it has no success, or the calculation
    on its successes fails. *)
Definition round_without_price {W} `{Host W} (this : PriceAggregator.t W) : Prop :=
  forall s l s',
    PriceAggregator.fetchPricesWithTimeout this s = (Normal l, s') ->
    filter (fun ep => success ep = true) l = [] \/
    exists e, PriceAggregator.calculateFinalPrice this
                (filter (fun ep => success ep = true) l) = Abrupt e.

(** The configurations of a list that an exchange name selects, case
    ignored. *)
Definition configs_named (key : string) (config : list ProviderConfig)
    : list ProviderConfig :=
  filter (fun cfg => Str.toLowerCase (name cfg) = key) config.

(** An aggregator whose configuration names Binance twice. *)
Definition two_weights : PriceAggregator.t unit :=
  aggregator [steady "Binance" (JS.of_Z 9)]
             [weighted "Binance" (JS.of_Z 2); weighted "MEXC" (JS.of_Z 1);
              weighted "binance" (JS.of_Z 3)].


(** ** The publisher ([services/feed-publisher]) *)

Module FeedPublisher.

Record HiveConfig : Type := {
  witnessAccount : string;
  privateKey : string;
  rpcNodes : option (list string);
  chainId : option string;
}.

(** The publisher. Of [hive], [wax] and [wallet], objects of the libraries,
    the methods below only test the presence; [hive] is the chain of the
    wrapper. *)
Record t : Type := {
  config : HiveConfig;
  hiveChainFailover : option HiveChainWithFailover.t;
  hive : bool;
  wax : bool;
  wallet : bool;
  publicKey : option string;
}.

Definition new (config : HiveConfig) : outcome t :=
  if bool_decide (witnessAccount config = "") then
    Abrupt (new_Error "witnessAccount is required")
  else
    Normal {| config := config; hiveChainFailover := None;
              hive := false; wax := false; wallet := false; publicKey := None |}.

(** The publisher and the machine it runs on. *)
Record state (W : Type) : Type := {
  self : t;
  machine_of : machine W;
}.
Arguments self {W} _.
Arguments machine_of {W} _.


(** [typeof priceUSD !== "number" || priceUSD <= 0 || isNaN(priceUSD)] *)
Definition validatePrice (priceUSD : value) : outcome unit :=
  let invalid :=
    match priceUSD with
    | VNum n => JS.leb n (JS.of_Z 0) || JS.isNaN n
    | _ => true
    end in
  if invalid then
    Abrupt (new_Error ("Invalid price for exchange rate conversion: " +:+
                       String_of priceUSD))
  else Normal tt.

Section Methods.
Context {W : Type} `{Host W} {asset : Type}.

(** What the publisher calls: the aggregator of the module; the asset
    constructors of the library, [wax.hbdCoins] and [wax.hiveCoins]; and the
    transaction that sets the exchange rate of the witness, built, signed
    and broadcast on a chain. *)
Context (priceAggregator : PriceAggregator.t W).
Context (hbdCoins hiveCoins : number -> outcome asset).
Context (broadcast : string -> string -> asset -> asset ->
                     option HiveChainWithFailover.Chain -> W -> outcome value * W).

Definition get_self : M (state W) t := fun s => (Normal (self s), s).

(** A computation of the machine, run by the publisher. *)
Definition on_machine {A} (m : M (machine W) A) : M (state W) A :=
  fun s => let '(r, k) := m (machine_of s) in
           (r, {| self := self s; machine_of := k |}).




End Methods.
End FeedPublisher.

(** ** The provider table ([providers/static-providers], [config/providers-config]) *)

Record StaticProviderConfig : Type := {
  static_name : string;
  static_module : string;
  static_exportName : option string;
  static_enabled : option bool;
  static_weight : option number;
  static_timeout : option number;
  static_maxRetries : option nat;
}.

Definition static_provider (name module exportName : string) : StaticProviderConfig :=
  {| static_name := name; static_module := module;
     static_exportName := Some exportName;
     static_enabled := Some true;
     static_weight := Some (JS.of_Z 1);
     static_timeout := None;
     static_maxRetries := None |}.

Definition STATIC_PROVIDERS : list StaticProviderConfig :=
  [ static_provider "binance" "@/providers/binance-provider" "BinancePriceProvider";
    static_provider "bitget" "@/providers/bitget-provider" "BitgetPriceProvider";
    static_provider "huobi" "@/providers/huobi-provider" "HuobiPriceProvider";
    static_provider "mexc" "@/providers/mexc-provider" "MEXCPriceProvider";
    static_provider "probit" "@/providers/probit-provider" "ProbitPriceProvider" ].

Module ProvidersConfig.

(** What [computeActiveConfig] returns: a list it has built, or whatever
    [JSON.parse] made of the environment variable, unchecked. *)
Inductive active : Type :=
  | Checked (config : list ProviderConfig)
  | Unchecked (raw : json).

Definition toKey (name : string) : string := Str.toLowerCase name.

Section computeActiveConfig.
(** [process.env] and [JSON.parse]. *)
Context (env : gmap string string) (JSON_parse : string -> outcome json).

Definition active_of (p : StaticProviderConfig) : ProviderConfig :=
  {| name := static_name p;
     enabled := default true (static_enabled p);
     config_weight := Some (default (JS.of_Z 1) (static_weight p));
     config_timeout := static_timeout p;
     config_maxRetries := static_maxRetries p |}.

(** The function on a provider table. *)
Definition computeActiveConfig_on (table : list StaticProviderConfig) : active :=
  if (0 <? length table)%nat then
    Checked (map active_of
               (filter (fun p => static_enabled p <> Some false) table))
  else
    match env !! "HIVE_PRICE_PROVIDERS" with
    | Some providersEnv =>
        if bool_decide (providersEnv = "") then Checked []
        else
          match JSON_parse providersEnv with
          | Normal config => Unchecked config
          | Abrupt _ => Checked []
          end
    | None => Checked []
    end.

Definition computeActiveConfig : active := computeActiveConfig_on STATIC_PROVIDERS.

Definition getActiveProvidersConfig : active := computeActiveConfig.

End computeActiveConfig.
End ProvidersConfig.

(** ** Predicates and scenarios for the publisher *)






(** ** The Bitget provider ([providers/bitget-provider]) *)

Module BitgetPriceProvider.

Definition exchangeName : string := "Bitget".
Definition baseUrl : string := "https://api.bitget.com".

(** [items.find((x) => x.symbol === 'HIVEUSDT')] on the elements of an
    array: the first element whose [symbol] is the string; reading the
    property of a [null] element throws. *)
Fixpoint find_symbol (items : list json) : outcome Json.t :=
  match items with
  | [] => Normal None
  | item :: items' =>
      match Json.get (Some item) "symbol" with
      | Abrupt e => Abrupt e
      | Normal symbol =>
          if Json.is_string symbol "HIVEUSDT" then Normal (Some item)
          else find_symbol items'
      end
  end.

(** [v.data.find(...)], [what] being the text of the expression [v.data]:
    on anything but an array there is no such method. *)
Definition find_in_data (what : string) (v : json) : outcome Json.t :=
  match Json.get (Some v) "data" with
  | Abrupt e => Abrupt e
  | Normal None => Abrupt (Json.TypeError_read "undefined" "find")
  | Normal (Some JNull) => Abrupt (Json.TypeError_read "null" "find")
  | Normal (Some (JArr items)) => find_symbol items
  | Normal (Some _) => Abrupt (ErrorObject "TypeError" (what +:+ ".find is not a function"))
  end.

Section Methods.
Context {V W : Type} `{Network W} (this : PriceProvider.t V).

Definition symbols : string :=
  PriceProvider.baseUrl this +:+ "/api/v2/spot/public/symbols?symbol=HIVEUSDT".

Definition tickers : string :=
  PriceProvider.baseUrl this +:+ "/api/v2/spot/market/tickers?symbol=HIVEUSDT".

Definition getHivePrice : M (machine W) number :=
  let url := symbols in
  data ← makeRequest this url;
  code ← lift (Json.get (Some data) "code");
  if negb (Json.is_string code "00000") then
    msg ← lift (Json.get (Some data) "msg");
    throw (new_Error ("Bitget API error: " +:+ Json.String_of msg))
  else
    hiveSymbol ← lift (find_in_data "data.data" data);
    if negb (Json.truthy hiveSymbol) then
      throw (new_Error "HIVEUSDT symbol not found in Bitget response")
    else
      status ← lift (Json.get hiveSymbol "status");
      if negb (Json.is_string status "online") then
        throw (new_Error ("HIVEUSDT trading is not online, status: " +:+
                          Json.String_of status))
      else
        let tickerUrl := tickers in
        tickerData ← makeRequest this tickerUrl;
        code ← lift (Json.get (Some tickerData) "code");
        if negb (Json.is_string code "00000") then
          msg ← lift (Json.get (Some tickerData) "msg");
          throw (new_Error ("Bitget ticker API error: " +:+ Json.String_of msg))
        else
          ticker ← lift (find_in_data "tickerData.data" tickerData);
          if negb (Json.truthy ticker) then
            throw (new_Error "HIVEUSDT ticker not found")
          else
            lastPr ← lift (Json.get ticker "lastPr");
            raw ← (if Json.truthy lastPr then mret lastPr
                   else lift (Json.get ticker "close"));
            let price := Json.parseFloat raw in
            if JS.isNaN price || JS.leb price (JS.of_Z 0) then
              throw (new_Error ("Invalid price received: " +:+ Number_toString price))
            else mret (roundToThreeDecimals price).

End Methods.
End BitgetPriceProvider.

(** ** Predicates for the rounds and the attempts *)

(** The entry a round holds for a provider: under its name, a success with
    the price a fetch returned, which passed the validity check; or a
    failure that quotes the price that did not pass; or a failure with the
    message of the error a fetch threw. A provider without a name is
    reported as unknown, a missing one as a rejected promise. *)
Definition round_entry {W} (provider : @slot W) (ep : ExchangePrice) : Prop :=
  match provider with
  | Some p =>
      if bool_decide (PriceProvider.exchangeName p = "") then
        ep = failed "Unknown" "Invalid provider configuration"
      else
        (exists w w',
           PriceProvider.getHivePrice p w = (Normal (price ep), w') /\
           isValidPrice (VNum (price ep)) = true /\
           ep = succeeded (PriceProvider.exchangeName p) (price ep)) \/
        (exists n w w',
           PriceProvider.getHivePrice p w = (Normal n, w') /\
           isValidPrice (VNum n) = false /\
           ep = failed (PriceProvider.exchangeName p)
                  ("Invalid price received: " +:+ Number_toString n)) \/
        (exists e w w',
           PriceProvider.getHivePrice p w = (Abrupt e, w') /\
           ep = failed (PriceProvider.exchangeName p) (message_or_unknown e))
  | None => ep = failed "Unknown" "Promise rejected"
  end.

(** ** Scenarios for the Bitget provider *)

(** The Bitget provider with the defaults of its class, and a network that
    lists the symbol as online and quotes 0.2345 for it. *)
Definition bitget : PriceProvider.t unit :=
  PriceProvider.new BitgetPriceProvider.exchangeName BitgetPriceProvider.baseUrl
    (fun w => (Abrupt (new_Error "unused"), w)).

Definition answer (v : json) : Response :=
  {| ok := true;
     status := JS.of_Z 200;
     statusText := "OK";
     retry_after_header := None;
     body := Normal v |}.

Definition listed_online : Response :=
  answer (JObj [("code", JStr "00000"); ("msg", JStr "success");
                ("data", JArr [JObj [("symbol", JStr "HIVEUSDT");
                                     ("status", JStr "online")]])]).

Definition last_price : Response :=
  answer (JObj [("code", JStr "00000"); ("msg", JStr "success");
                ("data", JArr [JObj [("symbol", JStr "HIVEUSDT");
                                     ("lastPr", JStr "0.2345")]])]).

Definition listing : Network unit :=
  {| fetch := fun url _ w =>
       if bool_decide (url = BitgetPriceProvider.symbols bitget)
       then (Normal listed_online, w)
       else (Normal last_price, w) |}.

(** * Properties *)

(** ** Numbers *)

(** Rationals: equality through [Q], and the sign of a quotient. *)







Section NumberFacts.
Implicit Types (x y z : number) (a b : Qc).

Lemma ltb_Fin a b : JS.ltb (JS.Fin a) (JS.Fin b) = true <-> (a < b)%Qc.
Proof.
  unfold JS.ltb; simpl. rewrite Qclt_alt.
  destruct (a ?= b)%Qc; split; congruence.
Qed.

Lemma leb_Fin a b : JS.leb (JS.Fin a) (JS.Fin b) = true <-> (a <= b)%Qc.
Proof.
  unfold JS.leb; simpl. rewrite Qcle_alt.
  destruct (a ?= b)%Qc; split; congruence.
Qed.

Lemma strict_eq_Fin x b : JS.strict_eq x (JS.Fin b) = true <-> x = JS.Fin b.
Proof.
  unfold JS.strict_eq. destruct x as [| | |a]; simpl; try (split; congruence).
  destruct (a ?= b)%Qc eqn:E.
  - apply Qceq_alt in E. subst. tauto.
  - split; [congruence|]. intros [= ->]. 
    assert ((b ?= b)%Qc = Eq) by (by apply Qceq_alt). congruence.
  - split; [congruence|]. intros [= ->].
    assert ((b ?= b)%Qc = Eq) by (by apply Qceq_alt). congruence.
Qed.

Lemma strict_ne_Fin x b : JS.strict_ne x (JS.Fin b) = true <-> x <> JS.Fin b.
Proof.
  unfold JS.strict_ne. rewrite negb_true_iff, <- not_true_iff_false.
  by rewrite strict_eq_Fin.
Qed.

Lemma QcZ_inj (m n : Z) : JS.QcZ m = JS.QcZ n <-> m = n.
Proof.
  unfold JS.QcZ. rewrite Q2Qc_eq_iff. split; [apply inject_Z_injective|].
  by intros ->.
Qed.

Lemma QcZ_lt (m n : Z) : (JS.QcZ m < JS.QcZ n)%Qc <-> (m < n)%Z.
Proof.
  unfold Qclt, JS.QcZ; simpl. rewrite !Qred_correct, Zlt_Qlt. reflexivity.
Qed.


Lemma QcZ_mul (m n : Z) : (JS.QcZ m * JS.QcZ n)%Qc = JS.QcZ (m * n).
Proof.
  apply Qc_is_canon. unfold JS.QcZ, Qcmult; simpl.
  rewrite !Qred_correct, inject_Z_mult. reflexivity.
Qed.


Lemma mul_of_Z (m n : Z) : JS.mul (JS.of_Z m) (JS.of_Z n) = JS.of_Z (m * n).
Proof. unfold JS.of_Z; simpl. by rewrite QcZ_mul. Qed.















End NumberFacts.

(** Closes a goal on closed terms by evaluation; an equation between
    rationals is decided rather than compared syntactically. *)
Ltac by_compute :=
  repeat split;
  first [ vm_compute; reflexivity | compute_done ].

(** ** The price validator *)


(** The validator on a few raw values. *)
Example validate_string_price :
  validatePriceData (VStr "0.2345") "HIVEUSDT" "MEXC"
  = Normal (JS.Fin (Q2Qc (2345 # 10000))).
Proof. by_compute. Qed.

Example validate_codes :
  match validatePriceData VNull "HIVEUSDT" "MEXC" with
  | Abrupt e => code e = MISSING_PRICE_FIELD
  | Normal _ => False
  end /\
  match validatePriceData (VStr "n/a") "HIVEUSDT" "MEXC" with
  | Abrupt e => code e = INVALID_PRICE_DATA
  | Normal _ => False
  end /\
  match validatePriceData (VNum JS.PosInf) "HIVEUSDT" "MEXC" with
  | Abrupt e => code e = INVALID_PRICE_DATA
  | Normal _ => False
  end /\
  match validatePriceData (VNum (JS.of_Z 0)) "HIVEUSDT" "MEXC" with
  | Abrupt e => code e = PRICE_OUT_OF_RANGE
  | Normal _ => False
  end /\
  match validatePriceData (VStr "10000.5") "HIVEUSDT" "MEXC" with
  | Abrupt e => code e = PRICE_OUT_OF_RANGE
  | Normal _ => False
  end /\
  validatePriceData (VNum (JS.of_Z 10000)) "HIVEUSDT" "MEXC" = Normal (JS.of_Z 10000).
Proof. by_compute. Qed.

(** ** The error classifier *)

Section Classifier.
Import DomainAwareErrorHandler.






Lemma network_delay_timeout msg arg cause :
  getRetryDelay (new_PriceNetworkError msg NETWORK_TIMEOUT arg cause) = JS.of_Z 2000.
Proof. unfold getRetryDelay; simpl. apply mul_of_Z. Qed.





(** The classifier on a message of each kind. *)
Example classify_each_kind :
  code (createTypedError (new_Error "Request timeout after 10000ms") binance_request)
  = NETWORK_TIMEOUT /\
  code (createTypedError (new_Error "connect ECONNREFUSED 127.0.0.1:443") binance_request)
  = NETWORK_CONNECTION_FAILED /\
  code (createTypedError (new_Error "rate limit hit, Retry-After: 17") binance_request)
  = API_RATE_LIMITED /\
  getRetryDelay (createTypedError (new_Error "rate limit hit, Retry-After: 17")
                   binance_request)
  = JS.of_Z 17000 /\
  code (createTypedError (new_Error "HTTP 503 Service Unavailable") binance_request)
  = API_SERVER_ERROR /\
  code (createTypedError (new_Error "status: 404") binance_request)
  = API_NOT_FOUND /\
  code (createTypedError (new_Error "403 error") binance_request)
  = API_UNAUTHORIZED /\
  code (createTypedError (OtherValue None "boom" true) binance_request)
  = API_INVALID_RESPONSE.
Proof. by_compute. Qed.

End Classifier.

(** ** The final price *)

Section FinalPrice.
Import PriceAggregator.
Context {W : Type} (this : PriceAggregator.t W).

Lemma fold_left_through_map {A B C} (f : A -> B -> A) (g : C -> B) (l : list C) (a : A) :
  fold_left (fun acc e => f acc (g e)) l a = fold_left f (map g l) a.
Proof. revert a. induction l as [|e l IH]; intros a; simpl; [done|apply IH]. Qed.



Lemma applyWeights_length (prices : list ExchangePrice) :
  length (applyWeights this prices) = length prices.
Proof. unfold applyWeights. by rewrite length_map. Qed.

Lemma applyWeights_successes (prices : list ExchangePrice) :
  Forall (fun ep => success ep = true) prices ->
  filter (fun p => success (base p) = true) (applyWeights this prices)
  = applyWeights this prices.
Proof.
  intros Hall. unfold applyWeights.
  induction Hall as [|ep l Hep _ IH]; simpl; [done|].
  rewrite filter_cons_True by done. by rewrite IH.
Qed.



End FinalPrice.


(** (9 × 2 + 12 × 1) / 3 = 10.000 *)
Example two_to_one_final_price :
  PriceAggregator.calculateFinalPrice two_to_one two_to_one_prices
  = Normal (JS.of_Z 10).
Proof. by_compute. Qed.


(** ** The total weight *)

Section TotalWeight.
Import PriceAggregator.
Context {W : Type} (this : PriceAggregator.t W).

Lemma positive_add (x y : number) : positive x -> positive y -> positive (JS.add x y).
Proof.
  intros [-> | (a & -> & Ha)] [-> | (b & -> & Hb)]; simpl; try by left.
  right. eexists; split; [done|]. by apply Qcplus_pos_pos.
Qed.

Lemma add_zero_l (y : number) : positive y -> JS.add (JS.of_Z 0) y = y.
Proof.
  intros [-> | (b & -> & _)]; simpl; [done|].
  f_equal. change (JS.QcZ 0) with 0%Qc. ring.
Qed.

Lemma fold_add_positive (l : list number) (acc : number) :
  positive acc -> Forall positive l -> positive (fold_left JS.add l acc).
Proof.
  intros Hacc Hall. revert acc Hacc.
  induction Hall as [|y l Hy _ IH]; intros acc Hacc; simpl; [done|].
  apply IH. by apply positive_add.
Qed.

Lemma sum_positive (l : list number) :
  l <> [] -> Forall positive l -> positive (sum l).
Proof.
  intros Hne Hall. destruct Hall as [|y l Hy Hall]; [done|].
  unfold sum. cbn [fold_left]. rewrite add_zero_l by done.
  by apply fold_add_positive.
Qed.

Lemma positive_not_zero (x : number) :
  positive x -> JS.strict_eq x (JS.of_Z 0) = false /\ JS.gtb x (JS.of_Z 0) = true.
Proof.
  intros [-> | (a & -> & Ha)]; [done|]. split.
  - apply not_true_iff_false. intros E.
    apply (strict_eq_Fin _ (JS.QcZ 0)) in E. injection E as ->.
    by apply (Qclt_not_eq 0 0).
  - unfold JS.gtb. by apply ltb_Fin.
Qed.

Lemma weight_of_not_zero (ep : ExchangePrice) :
  weight_of this ep <> JS.Fin 0 /\ weight_of this ep <> JS.NaN.
Proof.
  unfold weight_of.
  destruct (_ ≫= config_weight) as [w|]; [|by split].
  destruct (JS.truthy w) eqn:Ew; [|by split].
  split; intros ->; by vm_compute in Ew.
Qed.

Lemma weight_of_positive (ep : ExchangePrice) :
  weights_not_negative this -> positive (weight_of this ep).
Proof.
  intros Hnn.
  assert (positive (JS.of_Z 1)) as Hone.
  { right. eexists; split; [done|]. by apply (QcZ_lt 0 1). }
  unfold weight_of.
  destruct (providersConfig this !! Str.toLowerCase (exchange ep)) as [cfg|] eqn:Ecfg;
    simpl; [|done].
  destruct (config_weight cfg) as [w|] eqn:Ew; [|done].
  destruct (JS.truthy w) eqn:Et; [|done].
  pose proof (Hnn _ _ _ Ecfg Ew) as Hw.
  destruct w as [| | |q]; try discriminate; [by left|].
  right. eexists; split; [done|].
  simpl in Et. apply negb_true_iff, bool_decide_eq_false in Et.
  apply not_true_iff_false in Hw. unfold JS.of_Z in Hw. rewrite ltb_Fin in Hw.
  change (JS.QcZ 0) with 0%Qc in Hw.
  destruct (Qc_dec 0 q) as [[Hlt | Hgt] | Heq]; [done | done | congruence].
Qed.

(** C10, amended. The weight attached to a price is never zero (nor NaN): a
    configured weight of 0, like a missing one, is replaced by 1.0. Hence,
    when no configured weight is negative, the total weight the
    weighted-average calculator computes on the successes of a round is
    positive, and neither the calculator nor the final-price calculation
    fails. *)
Theorem total_weight_positive (prices : list ExchangePrice) :
  weights_not_negative this ->
  prices <> [] ->
  Forall (fun ep => success ep = true) prices ->
  Forall (fun p => weight p <> JS.Fin 0 /\ weight p <> JS.NaN)
         (applyWeights this prices) /\
  positive (fold_left (fun acc p => JS.add acc (weight p))
                      (applyWeights this prices) (JS.of_Z 0)) /\
  (exists p, WeightedPriceCalculator.calculateWeightedAverage
               (applyWeights this prices) = Normal p) /\
  (exists p, calculateFinalPrice this prices = Normal p).
Proof.
  intros Hnn Hne Hall.
  assert (positive (fold_left (fun acc p => JS.add acc (weight p))
                              (applyWeights this prices) (JS.of_Z 0))) as Hpos.
  { rewrite (fold_left_through_map JS.add). apply sum_positive.
    - unfold applyWeights. by destruct prices.
    - unfold applyWeights. rewrite map_map. apply Forall_fmap, Forall_forall.
      intros ep _. simpl. by apply weight_of_positive. }
  assert (exists p, WeightedPriceCalculator.calculateWeightedAverage
                      (applyWeights this prices) = Normal p) as Hcalc.
  { unfold WeightedPriceCalculator.calculateWeightedAverage.
    rewrite applyWeights_successes by done.
    rewrite bool_decide_eq_false_2
      by (rewrite applyWeights_length; by destruct prices).
    destruct (positive_not_zero _ Hpos) as [-> _]. eauto. }
  split_and!; [|done|done|].
  - unfold applyWeights. apply Forall_fmap, Forall_forall. intros ep _. simpl.
    apply weight_of_not_zero.
  - unfold calculateFinalPrice.
    rewrite bool_decide_eq_false_2 by by destruct prices.
    destruct (existsb _ _); eauto.
Qed.

End TotalWeight.

Lemma two_to_one_not_negative : weights_not_negative two_to_one.
Proof.
  intros key cfg w Hcfg Hw.
  unfold two_to_one, aggregator, PriceAggregator.index_config in Hcfg.
  simpl in Hcfg.
  apply lookup_insert_Some in Hcfg as [[_ <-] | [_ Hcfg]];
    [injection Hw as <-; by_compute|].
  apply lookup_insert_Some in Hcfg as [[_ <-] | [_ Hcfg]];
    [injection Hw as <-; by_compute|].
  by rewrite lookup_empty in Hcfg.
Defined.

(** The theorem at the weights 2 and 1. *)
Lemma total_weight_positive_witness :
  Forall (fun p => weight p <> JS.Fin 0 /\ weight p <> JS.NaN)
         (PriceAggregator.applyWeights two_to_one two_to_one_prices) /\
  positive (fold_left (fun acc p => JS.add acc (weight p))
                      (PriceAggregator.applyWeights two_to_one two_to_one_prices)
                      (JS.of_Z 0)) /\
  (exists p, WeightedPriceCalculator.calculateWeightedAverage
               (PriceAggregator.applyWeights two_to_one two_to_one_prices)
             = Normal p) /\
  (exists p, PriceAggregator.calculateFinalPrice two_to_one two_to_one_prices
             = Normal p).
Proof.
  apply total_weight_positive;
    [apply two_to_one_not_negative | done | by repeat constructor].
Defined.

(** C10, as it is worded, fails: with the weights 2 and -2 both attached
    weights differ from 0, yet the round of the aggregator that yields the
    two successes makes the calculator compute the total weight 0 and take
    its zero-total branch. *)
Lemma total_weight_zero_reached :
  fst (PriceAggregator.fetchPricesWithTimeout opposite_weights
         {| world := tt; trace := [] |})
  = Normal two_to_one_prices /\
  map weight (PriceAggregator.applyWeights opposite_weights two_to_one_prices)
  = [JS.of_Z 2; JS.of_Z (-2)] /\
  fold_left (fun acc p => JS.add acc (weight p))
            (PriceAggregator.applyWeights opposite_weights two_to_one_prices)
            (JS.of_Z 0)
  = JS.of_Z 0 /\
  PriceAggregator.calculateFinalPrice opposite_weights two_to_one_prices
  = Abrupt (new_Error "Total weight cannot be zero").
Proof. by_compute. Qed.

(** ** The entries of a round and of the detailed listing *)

Ltac unfold_monad :=
  unfold mbind, M_bind, bind, mret, M_ret, ret, throw, try, lift, call, host,
    sleep, log_event in *.

Section Entries.
Context {W : Type}.

Lemma isValidPrice_positive (n : number) :
  isValidPrice (VNum n) = true <-> positive n.
Proof.
  unfold isValidPrice, positive, JS.gtb.
  destruct n as [| | |q]; simpl.
  - split; [done | by intros [|(? & ? & _)]].
  - split; [by left | done].
  - split; [done | by intros [|(? & ? & _)]].
  - rewrite andb_true_r.
    change (JS.ltb (JS.Fin 0) (JS.Fin q) = true <-> positive (JS.Fin q)).
    rewrite ltb_Fin. split.
    + intros Hq. right. eauto.
    + intros [| (q' & [= <-] & Hq)]; done.
Qed.

(** Every callback settles, and [Promise.allSettled] returns one completion
    per element, each related to its element by whatever relates a callback's
    completion to its argument. *)
Lemma allSettled_spec {A B} (f : A -> M (machine W) B) (P : A -> outcome B -> Prop)
    (l : list A) (s : machine W) :
  (forall x s0, P x (f x s0).1) ->
  exists rs s', allSettled f l s = (Normal rs, s') /\ Forall2 P l rs.
Proof.
  intros Hf. revert s. induction l as [|x l IH]; intros s; simpl.
  - unfold_monad. eauto using Forall2_nil.
  - unfold_monad. pose proof (Hf x s) as Hx.
    destruct (f x s) as [r s1]. destruct (IH s1) as (rs & s2 & -> & Hrs).
    eauto using Forall2_cons.
Qed.

Lemma exchange_price_of_valid (provider : @slot W) (s : machine W) :
  match (exchange_price_of provider s).1 with
  | Normal ep => valid_entry ep
  | Abrupt _ => True
  end.
Proof.
  unfold exchange_price_of, checked_price.
  destruct provider as [p|]; unfold_monad; [|done].
  case_bool_decide; [simpl; unfold valid_entry; simpl; by eauto|].
  destruct (PriceProvider.getHivePrice p (world s)) as [[n|e] w].
  - destruct (isValidPrice (VNum n)) eqn:Ev; simpl.
    + unfold valid_entry; simpl. split; [done | by apply isValidPrice_positive].
    + unfold valid_entry; simpl. eauto.
  - simpl. unfold valid_entry; simpl. eauto.
Qed.

Lemma mapProvidersToExchangePrices_valid (providers : list (@slot W)) (s : machine W) :
  exists l s', mapProvidersToExchangePrices providers s = (Normal l, s') /\
               length l = length providers /\ Forall valid_entry l.
Proof.
  unfold mapProvidersToExchangePrices.
  destruct (allSettled_spec exchange_price_of
              (fun _ r => match r with Normal ep => valid_entry ep | _ => True end)
              providers s) as (rs & s' & E & Hrs).
  { intros x s0. apply exchange_price_of_valid. }
  unfold_monad. rewrite E. eexists _, _. split; [done|]. split.
  - rewrite length_map. symmetry. by eapply Forall2_length.
  - apply Forall_fmap. eapply Forall2_Forall_r; [exact Hrs|].
    apply Forall_forall. intros _ _ [ep|e] Hr; simpl; [done|].
    unfold valid_entry; simpl. eauto.
Qed.

Lemma detailed_price_of_entry (provider : @slot W) (s : machine W) :
  detailed_entry provider (settled_value (detailed_price_of provider s).1).
Proof.
  unfold detailed_price_of.
  destruct provider as [p|]; unfold_monad; simpl; [|done].
  destruct (PriceProvider.getHivePrice p (world s)) as [[n|e] w] eqn:E; simpl.
  - split; [done|]. left. eauto.
  - split; [done|]. right. split_and!; [done | done | eauto].
Qed.

End Entries.

Section Listing.
Import PriceAggregator.
Context {W : Type} `{Host W} (this : PriceAggregator.t W).

(** A round always returns a list. *)
Lemma fetchPricesWithTimeout_returns (s : machine W) :
  exists l s', fetchPricesWithTimeout this s = (Normal l, s').
Proof.
  unfold fetchPricesWithTimeout, fetchAllExchangePrices. unfold_monad.
  destruct (mapProvidersToExchangePrices_valid (providers this)
              {| world := world s; trace := trace s ++ [EvRound] |})
    as (l & s1 & E & _).
  unfold_monad. rewrite E.
  destruct (timer_wins (timeout this) (world s1)) as [[|] w]; eauto.
Qed.

(** C9. A round of the aggregator returns a list whose every entry is
    valid: a success carries a price that passed the validity check (a
    number, greater than 0, not NaN); a failure carries the price 0 and an
    error message. So the prices the aggregator averages, the successes of
    the round, are all positive. *)
Theorem round_entries_valid (s : machine W) :
  exists l s',
    fetchPricesWithTimeout this s = (Normal l, s') /\
    Forall valid_entry l /\
    Forall (fun ep => positive (price ep)) (filter (fun ep => success ep = true) l).
Proof.
  assert (forall l, Forall valid_entry l ->
            Forall (fun ep => positive (price ep))
                   (filter (fun ep => success ep = true) l)) as Hfilter.
  { intros l Hl. apply Forall_forall. intros ep [Hs Hep]%list_elem_of_filter.
    rewrite Forall_forall in Hl. specialize (Hl _ Hep).
    unfold valid_entry in Hl. rewrite Hs in Hl. tauto. }
  unfold fetchPricesWithTimeout, fetchAllExchangePrices.
  unfold_monad.
  destruct (mapProvidersToExchangePrices_valid (providers this)
              {| world := world s; trace := trace s ++ [EvRound] |})
    as (l & s1 & E & _ & Hl).
  unfold_monad. rewrite E.
  destruct (timer_wins (timeout this) (world s1)) as [[|] w].
  - eexists _, _. split_and!; [done | constructor | constructor].
  - eexists _, _. split_and!; [done | done | by apply Hfilter].
Qed.

(** C8. The detailed listing never throws: on every provider list and in
    every state it returns a list that has, provider by provider, the entry
    of that provider: the price exactly as the provider returned it, with no
    aggregation, or the record of its failure, with success false, the price
    0 and an error message. When every fetch fails, every entry is such a
    failure. *)
Theorem getDetailedPrices_total (s : machine W) :
  exists l s',
    getDetailedPrices this s = (Normal l, s') /\
    length l = length (providers this) /\
    Forall2 detailed_entry (providers this) l /\
    Forall (fun ep => success ep = false -> is_Some (error ep)) l /\
    (Forall always_fails (providers this) ->
     Forall (fun ep => success ep = false /\ is_Some (error ep)) l).
Proof.
  unfold getDetailedPrices, mapProvidersToDetailedPrices.
  destruct (allSettled_spec detailed_price_of
              (fun provider r => detailed_entry provider (settled_value r))
              (providers this) s) as (rs & s' & E & Hrs).
  { intros x s0. apply detailed_price_of_entry. }
  unfold_monad. rewrite E. eexists _, _.
  assert (Forall2 detailed_entry (providers this) (map settled_value rs)) as Hall.
  { by apply Forall2_fmap_r. }
  split_and!; [done | | done | |].
  - symmetry. by eapply Forall2_length.
  - eapply Forall2_Forall_r; [exact Hall|]. apply Forall_forall.
    intros [p|] _ ep Hep Hfail; simpl in Hep.
    + destruct Hep as [_ [(Hs & _) | (_ & _ & e & w & w' & _ & ->)]];
        [congruence | eauto].
    + subst ep. simpl. eauto.
  - intros Hfails.
    assert (Forall2 (fun provider ep => always_fails provider /\ detailed_entry provider ep)
                    (providers this) (map settled_value rs)) as Hboth.
    { apply Forall2_same_length_lookup. split; [by eapply Forall2_length|].
      intros i provider ep Hp Hep. split.
      - rewrite Forall_forall in Hfails. apply Hfails.
        by eapply list_elem_of_lookup_2.
      - by eapply Forall2_lookup_lr. }
    eapply Forall2_Forall_r; [exact Hboth|]. apply Forall_forall.
    intros [p|] _ ep [Hfail Hep]; simpl in *.
    + destruct Hep as [_ [(_ & _ & w & w' & Hok) | (Hs & _ & e & w & w' & _ & ->)]].
      * destruct (Hfail w) as (e & w'' & Hko). congruence.
      * eauto.
    + subst ep. simpl. eauto.
Qed.

End Listing.

(** ** The retry helper of a provider *)

Section Retry.
Context {W : Type} (this : PriceProvider.t W) (fetchFn : W -> outcome value * W).








End Retry.


(** ** The rounds of the aggregator *)

Section Rounds.
Import PriceAggregator.
Context {W : Type} `{Host W} (this : PriceAggregator.t W).

Lemma control_app (t1 t2 : list event) :
  control (t1 ++ t2) = (control t1 ++ control t2)%list.
Proof. apply filter_app. Qed.

Lemma allSettled_control {A B} (f : A -> M (machine W) B) (l : list A) (s : machine W) :
  (forall x s0, control (trace (f x s0).2) = control (trace s0)) ->
  control (trace (allSettled f l s).2) = control (trace s).
Proof.
  intros Hf. revert s. induction l as [|x l IH]; intros s; simpl; [done|].
  unfold_monad. pose proof (Hf x s) as Hx.
  destruct (f x s) as [r s1]. pose proof (IH s1) as Hl.
  destruct (allSettled f l s1) as [[rs|e] s2]; simpl in *; congruence.
Qed.

Lemma exchange_price_of_control (provider : @slot W) (s : machine W) :
  control (trace (exchange_price_of provider s).2) = control (trace s).
Proof.
  unfold exchange_price_of, checked_price.
  destruct provider as [p|]; unfold_monad; [|done].
  case_bool_decide; [done|].
  destruct (PriceProvider.getHivePrice p (world s)) as [[n|e] w].
  - destruct (isValidPrice (VNum n)); simpl;
      by rewrite control_app, app_nil_r.
  - simpl. by rewrite control_app, app_nil_r.
Qed.

(** A round leaves one mark in the trace, and no sleep. *)
Lemma fetchPricesWithTimeout_control (s : machine W) :
  control (trace (fetchPricesWithTimeout this s).2)
  = (control (trace s) ++ [EvRound])%list.
Proof.
  unfold fetchPricesWithTimeout, fetchAllExchangePrices, mapProvidersToExchangePrices.
  unfold_monad.
  pose proof (allSettled_control exchange_price_of (providers this)
                {| world := world s; trace := trace s ++ [EvRound] |}
                exchange_price_of_control) as Hc.
  destruct (allSettled _ _ _) as [[rs|e] s1]; simpl in *.
  - destruct (timer_wins _ _) as [[|] w]; simpl; by rewrite Hc, control_app.
  - by rewrite Hc, control_app.
Qed.

Lemma round_schedule_from (n attempt remaining : nat) :
  attempt + S remaining = S n ->
  flat_map (fun k => if (k <? n)%nat
                     then [EvRound; EvSleep (JS.mul (JS.of_Z 2000) (JS.of_nat k))]
                     else [EvRound])
           (seq attempt (S remaining))
  = (EvRound ::
     (if (attempt <? n)%nat
      then [EvSleep (JS.mul (JS.of_Z 2000) (JS.of_nat attempt))] else []) ++
     flat_map (fun k => if (k <? n)%nat
                        then [EvRound; EvSleep (JS.mul (JS.of_Z 2000) (JS.of_nat k))]
                        else [EvRound])
              (seq (S attempt) remaining))%list.
Proof. intros _. cbn [seq flat_map]. by destruct (attempt <? n)%nat. Qed.

Lemma rounds_schedule (n attempt remaining : nat) :
  rounds (flat_map (fun k => if (k <? n)%nat
                             then [EvRound; EvSleep (JS.mul (JS.of_Z 2000) (JS.of_nat k))]
                             else [EvRound])
                   (seq attempt remaining))
  = remaining.
Proof.
  revert attempt. induction remaining as [|r IH]; intros attempt; [done|].
  cbn [seq flat_map]. unfold rounds in *. rewrite filter_app, length_app, IH.
  by destruct (attempt <? n)%nat.
Qed.

Lemma rounds_control (t : list event) : rounds (control t) = rounds t.
Proof.
  unfold rounds, control. induction t as [|e t IH]; [done|].
  destruct e; simpl;
    rewrite ?filter_cons_True, ?filter_cons_False by (simpl; congruence);
    simpl; rewrite ?filter_cons_True, ?filter_cons_False by (simpl; congruence);
    simpl; by rewrite ?IH.
Qed.

(** The loop of the aggregator when no round has a success. *)
Lemma getAggregatedHivePrice_from_exhausted (remaining attempt : nat) (s : machine W) :
  round_without_success this ->
  attempt + remaining = S (maxRetries this) ->
  exists s',
    getAggregatedHivePrice_from this remaining attempt s = (Abrupt (exhausted this), s') /\
    control (trace s')
    = (control (trace s) ++
       flat_map (fun k => if (k <? maxRetries this)%nat
                          then [EvRound; EvSleep (JS.mul (JS.of_Z 2000) (JS.of_nat k))]
                          else [EvRound])
                (seq attempt remaining))%list.
Proof.
  intros Hnone. revert attempt s.
  induction remaining as [|n IH]; intros attempt s Hinv.
  - simpl. unfold_monad. eexists. split; [done|]. by rewrite app_nil_r.
  - cbn [getAggregatedHivePrice_from]. unfold_monad.
    destruct (fetchPricesWithTimeout_returns this s) as (l & s1 & E).
    pose proof (fetchPricesWithTimeout_control s) as Hc.
    pose proof (Hnone _ _ _ E) as Hl.
    rewrite E in *. rewrite Hl.
    change (0 <? length (@nil ExchangePrice))%nat with false.
    cbn [fst snd] in *.
    rewrite round_schedule_from by done.
    destruct (attempt <? maxRetries this)%nat.
    + destruct (IH (S attempt)
                  {| world := world s1;
                     trace := trace s1 ++
                              [EvSleep (JS.mul (JS.of_Z 2000) (JS.of_nat attempt))] |})
        as (s' & -> & Hs'); [lia|].
      eexists. split; [done|]. rewrite Hs'. cbn [trace].
      rewrite control_app, Hc. by rewrite <- !app_assoc.
    + destruct (IH (S attempt) s1) as (s' & -> & Hs'); [lia|].
      eexists. split; [done|]. rewrite Hs', Hc. by rewrite <- !app_assoc.
Qed.

(** C2. When every round yields zero successful prices, the aggregation
    runs [maxRetries] rounds, no more and no fewer, sleeps 2000 ms times the
    number of the round between two consecutive rounds, and then throws one
    error, whose message states the number of rounds. *)
Theorem getAggregatedHivePrice_exhausted (s : machine W) :
  providers this <> [] ->
  round_without_success this ->
  exists s',
    getAggregatedHivePrice this s
    = (Abrupt (new_Error ("Failed to obtain HIVE price after " +:+
                          pretty (maxRetries this) +:+
                          " attempts. All exchanges failed or timed out.")),
       s') /\
    control (trace s') = (control (trace s) ++ round_schedule (maxRetries this))%list /\
    rounds (trace s') = rounds (trace s) + maxRetries this.
Proof.
  intros Hproviders Hnone. unfold getAggregatedHivePrice.
  rewrite bool_decide_eq_false_2 by by destruct (providers this).
  destruct (getAggregatedHivePrice_from_exhausted (maxRetries this) 1 s Hnone)
    as (s' & E & Hs'); [lia|].
  exists s'. split_and!; [done | done |].
  rewrite <- (rounds_control (trace s')), Hs'.
  unfold rounds at 1. rewrite filter_app, length_app.
  fold (rounds (control (trace s))). rewrite rounds_control.
  f_equal. apply rounds_schedule.
Qed.

End Rounds.

(** The scenario is what the constructor builds. *)
Example all_down_constructed :
  PriceAggregator.new [broken "Binance"] [weighted "binance" (JS.of_Z 1)]
  = Normal all_down.
Proof. reflexivity. Qed.

Lemma all_down_without_success : round_without_success all_down.
Proof.
  intros [w t] l s'. vm_compute. intros [= <- _]. reflexivity.
Defined.

(** The theorem at one exchange that is out of order, with the three rounds
    of the class: rounds, sleeps of 2000 and 4000 ms in between, and the
    message. *)
Lemma getAggregatedHivePrice_exhausted_witness :
  (exists s',
     PriceAggregator.getAggregatedHivePrice all_down {| world := tt; trace := [] |}
     = (Abrupt (new_Error ("Failed to obtain HIVE price after " +:+
                           pretty (PriceAggregator.maxRetries all_down) +:+
                           " attempts. All exchanges failed or timed out.")),
        s') /\
     control (trace s')
     = (control [] ++ round_schedule (PriceAggregator.maxRetries all_down))%list /\
     rounds (trace s') = rounds [] + PriceAggregator.maxRetries all_down) /\
  PriceAggregator.getAggregatedHivePrice all_down {| world := tt; trace := [] |}
  = (Abrupt (new_Error
       "Failed to obtain HIVE price after 3 attempts. All exchanges failed or timed out."),
     {| world := tt;
        trace := [ EvRound; EvCall "Binance" (Abrupt (new_Error "fetch failed"));
                   EvSleep (JS.of_Z 2000);
                   EvRound; EvCall "Binance" (Abrupt (new_Error "fetch failed"));
                   EvSleep (JS.of_Z 4000);
                   EvRound; EvCall "Binance" (Abrupt (new_Error "fetch failed")) ] |}).
Proof.
  split.
  - apply (getAggregatedHivePrice_exhausted all_down);
      [done | apply all_down_without_success].
  - by_compute.
Defined.

(** ** The failover wrapper *)

Section Failover.
Import HiveChainWithFailover.
Context {W : Type} `{Host W}.
Context (operation : option Chain -> W -> outcome value * W).

Lemma run_operation_attempted (s : state W) :
  run_operation operation s
  = ((operation (chain (self s)) (world (machine_of s))).1,
     attempted s (operation (chain (self s)) (world (machine_of s))).1
                 (operation (chain (self s)) (world (machine_of s))).2).
Proof.
  unfold run_operation, get_self, on_machine, attempted. unfold_monad.
  by destruct (operation _ _).
Qed.

Lemma loop_on_success (remaining attempt : nat) (lastError : option thrown)
    (s : state W) (v : value) (w' : W) :
  operation (chain (self s)) (world (machine_of s)) = (Normal v, w') ->
  executeWithFailover_from operation (S remaining) attempt lastError s
  = (Normal v, attempted s (Normal v) w').
Proof.
  intros Hop. cbn [executeWithFailover_from].
  unfold mbind, M_bind, bind, try. rewrite run_operation_attempted, Hop. done.
Qed.

Lemma loop_on_non_recoverable (remaining attempt : nat) (lastError : option thrown)
    (s : state W) (e : thrown) (w' : W) :
  operation (chain (self s)) (world (machine_of s)) = (Abrupt e, w') ->
  isRecoverableChainError e = false ->
  executeWithFailover_from operation (S remaining) attempt lastError s
  = (Abrupt e, attempted s (Abrupt e) w').
Proof.
  intros Hop Hnr. cbn [executeWithFailover_from].
  unfold mbind, M_bind, bind, try. rewrite run_operation_attempted, Hop.
  cbn [fst snd]. by rewrite Hnr.
Qed.

Lemma loop_on_recoverable (remaining attempt : nat) (lastError : option thrown)
    (s : state W) (e : thrown) (w' : W) (c : Chain) :
  operation (chain (self s)) (world (machine_of s)) = (Abrupt e, w') ->
  isRecoverableChainError e = true ->
  S attempt < maxRetries (self s) ->
  chain (self s) = Some c ->
  exists s1,
    executeWithFailover_from operation (S remaining) attempt lastError s
    = executeWithFailover_from operation remaining (S attempt) (Some e) s1 /\
    currentNodeIndex (self s1)
    = (currentNodeIndex (self s) + 1) mod length (nodes (self s)) /\
    chain (self s1) ≫= endpointUrl = nodes (self s) !! currentNodeIndex (self s1) /\
    is_Some (chain (self s1)) /\
    nodes (self s1) = nodes (self s) /\
    maxRetries (self s1) = maxRetries (self s) /\
    exists delay,
      trace (machine_of s1)
      = (trace (machine_of s) ++
         [EvOperation (endpointUrl c) (Abrupt e); EvSleep delay])%list.
Proof.
  intros Hop Hrec Hleft Hchain. cbn [executeWithFailover_from].
  unfold mbind, M_bind, bind, try. rewrite run_operation_attempted, Hop.
  cbn [fst snd]. rewrite Hrec. cbn [negb].
  unfold get_self at 1. cbn [attempted self].
  assert ((S attempt <? maxRetries (self s))%nat = true) as ->
    by by apply Nat.ltb_lt.
  unfold switchToNextNode, get_self, set_self, on_machine, with_index, with_chain.
  unfold_monad. cbn. rewrite Hchain. cbn.
  destruct (Math_random w') as [random w''].
  eexists. split; [reflexivity|]. cbn.
  split_and!; try done. eexists. by rewrite <- app_assoc.
Qed.

End Failover.

(** The scenario starts from what the constructor and [initialize] build. *)
Example three_nodes_started :
  HiveChainWithFailover.new three_nodes
  = Normal (HiveChainWithFailover.with_chain None (wrapper_at 0 node_a)) /\
  (HiveChainWithFailover.initialize
     (started (HiveChainWithFailover.with_chain None (wrapper_at 0 node_a)))).2
  = started (wrapper_at 0 node_a).
Proof. by_compute. Qed.

(** C5. In the attempt loop of the failover wrapper, whatever the iteration:
    an attempt that succeeds returns its result at once and leaves the
    wrapper, and with it the current endpoint index, as it was; an attempt
    that fails with a recoverable error while attempts remain moves the
    index one position forward, wrapping around the node list, points the
    chain to that node, sleeps, and goes on with the next attempt. On the
    nodes A, B, C an operation that fails recoverably on A and on B and
    succeeds on C is attempted three times, and the wrapper is left on C,
    where the next call starts. *)
Theorem executeWithFailover_rotation :
  (forall (W : Type) (H : Host W)
          (operation : option HiveChainWithFailover.Chain -> W -> outcome value * W)
          (remaining attempt : nat) (lastError : option thrown)
          (s : HiveChainWithFailover.state W) (v : value) (w' : W),
     operation (HiveChainWithFailover.chain (HiveChainWithFailover.self s))
               (world (HiveChainWithFailover.machine_of s)) = (Normal v, w') ->
     HiveChainWithFailover.executeWithFailover_from operation
       (S remaining) attempt lastError s
     = (Normal v, attempted s (Normal v) w')) /\
  (forall (W : Type) (H : Host W)
          (operation : option HiveChainWithFailover.Chain -> W -> outcome value * W)
          (remaining attempt : nat) (lastError : option thrown)
          (s : HiveChainWithFailover.state W) (e : thrown) (w' : W)
          (c : HiveChainWithFailover.Chain),
     operation (HiveChainWithFailover.chain (HiveChainWithFailover.self s))
               (world (HiveChainWithFailover.machine_of s)) = (Abrupt e, w') ->
     isRecoverableChainError e = true ->
     S attempt < HiveChainWithFailover.maxRetries (HiveChainWithFailover.self s) ->
     HiveChainWithFailover.chain (HiveChainWithFailover.self s) = Some c ->
     exists s1,
       HiveChainWithFailover.executeWithFailover_from operation
         (S remaining) attempt lastError s
       = HiveChainWithFailover.executeWithFailover_from operation
           remaining (S attempt) (Some e) s1 /\
       HiveChainWithFailover.currentNodeIndex (HiveChainWithFailover.self s1)
       = (HiveChainWithFailover.currentNodeIndex (HiveChainWithFailover.self s) + 1)
           mod length (HiveChainWithFailover.nodes (HiveChainWithFailover.self s)) /\
       HiveChainWithFailover.chain (HiveChainWithFailover.self s1)
         ≫= HiveChainWithFailover.endpointUrl
       = HiveChainWithFailover.nodes (HiveChainWithFailover.self s)
           !! HiveChainWithFailover.currentNodeIndex (HiveChainWithFailover.self s1) /\
       is_Some (HiveChainWithFailover.chain (HiveChainWithFailover.self s1)) /\
       HiveChainWithFailover.nodes (HiveChainWithFailover.self s1)
       = HiveChainWithFailover.nodes (HiveChainWithFailover.self s) /\
       HiveChainWithFailover.maxRetries (HiveChainWithFailover.self s1)
       = HiveChainWithFailover.maxRetries (HiveChainWithFailover.self s) /\
       exists delay,
         trace (HiveChainWithFailover.machine_of s1)
         = (trace (HiveChainWithFailover.machine_of s) ++
            [EvOperation (HiveChainWithFailover.endpointUrl c) (Abrupt e);
             EvSleep delay])%list) /\
  HiveChainWithFailover.executeWithFailover down_on_a_and_b (started (wrapper_at 0 node_a))
  = (Normal (VStr "transaction-id"),
     {| HiveChainWithFailover.self := wrapper_at 2 node_c;
        HiveChainWithFailover.machine_of :=
          {| world := tt;
             trace := [ EvOperation (Some node_a) (Abrupt request_timeout);
                        EvSleep (JS.of_Z 1000);
                        EvOperation (Some node_b) (Abrupt request_timeout);
                        EvSleep (JS.of_Z 2000);
                        EvOperation (Some node_c) (Normal (VStr "transaction-id")) ] |} |}) /\
  HiveChainWithFailover.executeWithFailover down_on_a_and_b (started (wrapper_at 2 node_c))
  = (Normal (VStr "transaction-id"),
     attempted (started (wrapper_at 2 node_c)) (Normal (VStr "transaction-id")) tt).
Proof.
  split_and!.
  - intros. by apply loop_on_success.
  - intros. by eapply loop_on_recoverable.
  - by_compute.
  - by_compute.
Qed.

(** C6. When the operation fails with an error that the recoverability
    predicate rejects, the attempt loop, whatever the iteration, throws that
    very error at once: the state it leaves differs from the one it found by
    that single attempt, so no other attempt is made, no sleep occurs and the
    wrapper, with its current endpoint index, is untouched. So does
    [executeWithFailover], on an initialised wrapper with a budget that is
    not 0. *)
Theorem executeWithFailover_non_recoverable
    {W : Type} `{Host W}
    (operation : option HiveChainWithFailover.Chain -> W -> outcome value * W)
    (s : HiveChainWithFailover.state W) (e : thrown) (w' : W) :
  operation (HiveChainWithFailover.chain (HiveChainWithFailover.self s))
            (world (HiveChainWithFailover.machine_of s)) = (Abrupt e, w') ->
  isRecoverableChainError e = false ->
  (forall (remaining attempt : nat) (lastError : option thrown),
     HiveChainWithFailover.executeWithFailover_from operation
       (S remaining) attempt lastError s
     = (Abrupt e, attempted s (Abrupt e) w')) /\
  (is_Some (HiveChainWithFailover.chain (HiveChainWithFailover.self s)) ->
   0 < HiveChainWithFailover.maxRetries (HiveChainWithFailover.self s) ->
   HiveChainWithFailover.executeWithFailover operation s
   = (Abrupt e, attempted s (Abrupt e) w')).
Proof.
  intros Hop Hnr. split.
  - intros. by apply loop_on_non_recoverable.
  - intros [c Hc] Hbudget. unfold HiveChainWithFailover.executeWithFailover.
    unfold mbind, M_bind, bind, HiveChainWithFailover.get_self. rewrite Hc.
    destruct (HiveChainWithFailover.maxRetries (HiveChainWithFailover.self s))
      as [|n]; [lia|].
    by apply loop_on_non_recoverable.
Qed.

(** The theorem on the nodes A, B, C and an operation that is malformed:
    one attempt, on A, and the wrapper stays on A. *)
Lemma executeWithFailover_non_recoverable_witness :
  HiveChainWithFailover.executeWithFailover always_malformed (started (wrapper_at 0 node_a))
  = (Abrupt malformed,
     {| HiveChainWithFailover.self := wrapper_at 0 node_a;
        HiveChainWithFailover.machine_of :=
          {| world := tt;
             trace := [EvOperation (Some node_a) (Abrupt malformed)] |} |}).
Proof.
  apply (executeWithFailover_non_recoverable always_malformed
           (started (wrapper_at 0 node_a)) malformed tt);
    [reflexivity | reflexivity | by eexists | simpl; lia].
Defined.

(** ** Further properties *)

Section Exhaustion.
Import HiveChainWithFailover.
Context {W : Type} `{Host W}.
Context (operation : option Chain -> W -> outcome value * W).

Lemma operations_app (t1 t2 : list event) :
  operations (t1 ++ t2) = operations t1 + operations t2.
Proof. unfold operations. by rewrite filter_app, length_app. Qed.

Lemma sleeps_app (t1 t2 : list event) :
  sleeps (t1 ++ t2) = sleeps t1 + sleeps t2.
Proof. unfold sleeps. by rewrite filter_app, length_app. Qed.



(** X3. Before [initialize] the wrapper fails fast: no attempt is made and
    nothing changes. *)
Theorem executeWithFailover_uninitialized (s : state W) :
  chain (self s) = None ->
  executeWithFailover operation s
  = (Abrupt (new_Error "Chain not initialized. Call initialize() first."), s).
Proof.
  intros Hc. unfold executeWithFailover.
  unfold mbind, M_bind, bind, get_self, throw. by rewrite Hc.
Qed.

End Exhaustion.


Lemma executeWithFailover_uninitialized_witness :
  HiveChainWithFailover.executeWithFailover always_down
    (started (HiveChainWithFailover.with_chain None (wrapper_at 0 node_a)))
  = (Abrupt (new_Error "Chain not initialized. Call initialize() first."),
     started (HiveChainWithFailover.with_chain None (wrapper_at 0 node_a))).
Proof. by apply executeWithFailover_uninitialized. Defined.

Section FirstSuccess.
Import PriceAggregator.
Context {W : Type} `{Host W} (this : PriceAggregator.t W).


End FirstSuccess.


(** The examples of the specification: three exchanges at 10 with equal
    weights aggregate to 10; the prices 9.999, 10.000 and 10.002 aggregate to
    10.000, the mean being rounded once, at the end; 9 with the weight 2 and
    12 with the weight 1 aggregate to 10. *)
Theorem aggregated_price_examples :
  (PriceAggregator.getAggregatedHivePrice unanimous {| world := tt; trace := [] |}).1
  = Normal (JS.of_Z 10) /\
  (PriceAggregator.getAggregatedHivePrice close_by {| world := tt; trace := [] |}).1
  = Normal (JS.of_Z 10) /\
  (PriceAggregator.getAggregatedHivePrice two_to_one {| world := tt; trace := [] |}).1
  = Normal (JS.of_Z 10).
Proof. by_compute. Qed.

(** An example: a failure of the final-price calculation is caught by the
    loop of the aggregator like a round without success: with the weights 2
    and -2 both exchanges answer in each of the three rounds, and the
    aggregation ends with the error of an exhausted budget. *)
Theorem zero_total_weight_is_retried :
  PriceAggregator.getAggregatedHivePrice opposite_weights {| world := tt; trace := [] |}
  = (Abrupt (new_Error
       "Failed to obtain HIVE price after 3 attempts. All exchanges failed or timed out."),
     {| world := tt;
        trace := [ EvRound;
                   EvCall "Binance" (Normal (VNum (JS.of_Z 9)));
                   EvCall "MEXC" (Normal (VNum (JS.of_Z 12)));
                   EvSleep (JS.of_Z 2000);
                   EvRound;
                   EvCall "Binance" (Normal (VNum (JS.of_Z 9)));
                   EvCall "MEXC" (Normal (VNum (JS.of_Z 12)));
                   EvSleep (JS.of_Z 4000);
                   EvRound;
                   EvCall "Binance" (Normal (VNum (JS.of_Z 9)));
                   EvCall "MEXC" (Normal (VNum (JS.of_Z 12))) ] |}).
Proof. by_compute. Qed.

(** * Properties of the rest of the sources *)

(** ** Typed errors: retryability and delay *)

(** X6. Whatever the value, the helpers of the error module agree: it is
    retryable exactly when its retry delay is not 0. A value that is not a
    typed error is not retryable and has the delay 0. *)
Theorem retryable_iff_delay (error : Errors.unknown) :
  Errors.isRetryableError error
  = JS.strict_ne (Errors.getRetryDelay error) (JS.of_Z 0).
Proof.
  destruct error as [e|e]; [|by_compute].
  destruct e as [cl msg c ctx st ra inv ca].
  unfold Errors.isRetryableError, Errors.getRetryDelay, isRetryable, getRetryDelay.
  cbn [class code retryAfter].
  destruct cl.
  - destruct c; by_compute.
  - destruct c; try by_compute.
    destruct ra as [[| | |q]|]; try by_compute.
    cbn [option_truthy JS.truthy default andb].
    assert (bool_decide (API_RATE_LIMITED = API_RATE_LIMITED) = true) as -> by by_compute.
    assert (bool_decide (API_RATE_LIMITED ∈ retryableCodes) = true) as -> by by_compute.
    cbn [andb]. destruct (decide (q = 0%Qc)) as [->|Hq].
    + by_compute.
    + rewrite bool_decide_eq_false_2 by done. cbn [negb].
      symmetry. apply strict_ne_Fin. unfold JS.of_Z, id. cbn [JS.mul].
      intros E.
      apply (f_equal (fun x => match x with JS.Fin a => a | _ => 0%Qc end)) in E.
      cbn beta iota in E. change (JS.QcZ 0) with 0%Qc in E.
      apply Qcmult_integral in E as [E|E]; [done|].
      by apply (QcZ_inj 1000 0) in E.
  - destruct c; by_compute.
Qed.

(** ** The retry loop of the error handler *)




Lemma calls_app (t1 t2 : list event) : calls (t1 ++ t2) = calls t1 + calls t2.
Proof. unfold calls. by rewrite filter_app, length_app. Qed.


Section RetryLoop.
Context {W A : Type} (operation : M (machine W) A).
Context (context : DomainAwareErrorHandler.Context).

Lemma retry_budget_positive : 1 <= retry_budget context.
Proof.
  unfold retry_budget.
  destruct (DomainAwareErrorHandler.ctx_maxRetries context) as [[|n]|]; lia.
Qed.

Lemma executeWithRetry_first_try (s s1 : machine W) (v : A) :
  operation s = (Normal v, s1) ->
  executeWithRetry operation context s = (Normal v, s1).
Proof.
  intros Eop. unfold executeWithRetry.
  pose proof retry_budget_positive as Hpos.
  destruct (retry_budget context) as [|n]; [lia|].
  cbn [executeWithRetry_from]. unfold_monad. by rewrite Eop.
Qed.

Lemma executeWithRetry_gives_up (s s1 : machine W) (error : thrown) :
  operation s = (Abrupt error, s1) ->
  isRetryable (DomainAwareErrorHandler.createTypedError error context) = false ->
  executeWithRetry operation context s
  = (Abrupt (thrown_of (DomainAwareErrorHandler.createTypedError error context)), s1).
Proof.
  intros Eop Hno. unfold executeWithRetry.
  pose proof retry_budget_positive as Hpos.
  destruct (retry_budget context) as [|n]; [lia|].
  cbn [executeWithRetry_from]. unfold_monad. rewrite Eop. cbv zeta.
  by rewrite Hno.
Qed.



End RetryLoop.


(** ** HTTP requests *)

Section Requests.
Context {V W : Type} `{Network W} (this : PriceProvider.t V) (url : string).

(** The callback makes one fetch, and nothing else that the trace shows. *)
Lemma request_once_state (s : machine W) :
  exists r w, (request_once this url s).2 = fetched s url r w.
Proof.
  unfold request_once, request_block, await_fetch. unfold_monad.
  destruct (fetch url (PriceProvider.requestTimeout this) (world s)) as [r w].
  exists r, w. destruct r as [response|rej].
  - repeat match goal with
           | |- context [if ?b then _ else _] => destruct b
           | |- context [match body response with _ => _ end] =>
               destruct (body response)
           end; reflexivity.
  - destruct (_ && _); reflexivity.
Qed.

Lemma request_once_one_call : one_call (request_once this url).
Proof.
  intros s. destruct (request_once_state s) as (r & w & ->).
  cbn [fetched trace]. rewrite calls_app, sleeps_app.
  unfold calls, sleeps; simpl. lia.
Qed.

(** X8. A response with the status 429 is not retried: [makeRequest] makes
    one fetch, does not sleep, and throws an error of the API class with the
    code of an invalid response, which is not retryable and carries no
    [Retry-After], whatever the header of the response said. The typed
    rate-limit error of the callback is classified again by its message,
    "Rate limit exceeded", in which the classifier finds none of its
    markers. *)
Theorem makeRequest_rate_limited (s : machine W) (response : Response) (w' : W) :
  fetch url (PriceProvider.requestTimeout this) (world s) = (Normal response, w') ->
  ok response = false ->
  status response = JS.of_Z 429 ->
  exists e,
    makeRequest this url s
    = (Abrupt (thrown_of e), fetched s url (Normal response) w') /\
    class e = PriceAPIError /\
    code e = API_INVALID_RESPONSE /\
    message e = "Invalid response from " +:+
                name_or_unknown (PriceProvider.exchangeName this) +:+
                ": Rate limit exceeded" /\
    retryAfter e = None /\
    isRetryable e = false.
Proof.
  intros Efetch Hok Hstatus. eexists. split.
  - unfold makeRequest. apply executeWithRetry_gives_up.
    + unfold request_once, request_block, await_fetch. unfold_monad.
      rewrite Efetch, Hok, Hstatus. cbn [negb].
      assert (JS.strict_eq (JS.of_Z 429) (JS.of_Z 429) = true) as -> by by_compute.
      cbn [rejected_with reason reason_name class new_PriceAPIError class_name].
      assert (bool_decide ("PriceAPIError" = "AbortError") = false) as -> by by_compute.
      rewrite andb_false_r. reflexivity.
    + reflexivity.
  - split_and!; reflexivity.
Qed.

Lemma request_budget_eq : retry_budget (request_settings this) = request_budget this.
Proof.
  unfold retry_budget, request_budget; cbn.
  by destruct (PriceProvider.maxRetries this).
Qed.

Lemma request_once_aborted (s : machine W) :
  always_aborted url (PriceProvider.requestTimeout this) ->
  exists rej w',
    request_once this url s
    = (Abrupt (thrown_of (timeout_error this)), fetched s url (Abrupt rej) w').
Proof.
  intros Habort. destruct (Habort (world s)) as (rej & w' & Efetch & Herr & Hname).
  exists rej, w'. unfold request_once, request_block, await_fetch. unfold_monad.
  rewrite Efetch, Herr, Hname. reflexivity.
Qed.

(** The message of the typed time-out carries the marker of a time-out. *)
Lemma timeout_classified :
  DomainAwareErrorHandler.createTypedError (thrown_of (timeout_error this))
    (request_settings this)
  = new_PriceNetworkError
      ("Network timeout for " +:+ name_or_unknown (PriceProvider.exchangeName this))
      NETWORK_TIMEOUT
      (DomainAwareErrorHandler.error_context "http_request"
         (name_or_unknown (PriceProvider.exchangeName this)) None None)
      (Some (thrown_of (timeout_error this))).
Proof. reflexivity. Qed.

Lemma timeouts_loop (remaining attempt : nat) (lastError : option BaseAppError)
    (s : machine W) :
  always_aborted url (PriceProvider.requestTimeout this) ->
  attempt + remaining = S (retry_budget (request_settings this)) ->
  1 <= remaining ->
  exists s' t,
    executeWithRetry_from (request_once this url) (request_settings this)
      remaining attempt lastError s
    = (Abrupt (thrown_of (DomainAwareErrorHandler.createTypedError
                            (thrown_of (timeout_error this)) (request_settings this))),
       s') /\
    trace s' = (trace s ++ t)%list /\
    calls t = remaining /\
    sleeps t = remaining - 1 /\
    sleeps_of (JS.of_Z 2000) t.
Proof.
  intros Habort. revert attempt lastError s.
  induction remaining as [|remaining IH]; intros attempt lastError s Hinv Hpos; [lia|].
  cbn [executeWithRetry_from]. unfold_monad.
  destruct (request_once_aborted s Habort) as (rej & w' & ->). cbv zeta.
  rewrite timeout_classified.
  change (isRetryable (new_PriceNetworkError _ NETWORK_TIMEOUT _ _)) with true.
  cbn [negb orb]. case_bool_decide as Hlast.
  - eexists _, [_]. split_and!; [reflexivity | reflexivity | | |].
    + unfold calls; simpl. lia.
    + unfold sleeps; simpl. lia.
    + repeat constructor. done.
  - rewrite network_delay_timeout.
    assert (JS.gtb (JS.of_Z 2000) (JS.of_Z 0) = true) as -> by by_compute.
    match goal with
    | |- context [executeWithRetry_from _ _ remaining (S attempt) ?le ?st] =>
        destruct (IH (S attempt) le st) as (s' & t & -> & Ht & Hc & Hs & Hall);
          [lia | lia |]
    end.
    eexists s', (_ :: _ :: t). split_and!; [reflexivity | | | |].
    + rewrite Ht. cbn [trace fetched]. by rewrite <- !app_assoc.
    + change (calls (?a :: ?b :: t)) with (calls ([a; b] ++ t)).
      rewrite calls_app, Hc. unfold calls; simpl. lia.
    + change (sleeps (?a :: ?b :: t)) with (sleeps ([a; b] ++ t)).
      rewrite sleeps_app, Hs. unfold sleeps; simpl. lia.
    + repeat constructor; done.
Qed.

(** X9. When every fetch of the URL is aborted by its timer, [makeRequest]
    tries [maxRetries] times (3 when it is 0), sleeping 2000 ms between two
    tries, and throws a network error with the code of a time-out, named
    after the exchange. *)
Theorem makeRequest_timeouts (s : machine W) :
  always_aborted url (PriceProvider.requestTimeout this) ->
  exists e s' t,
    makeRequest this url s = (Abrupt (thrown_of e), s') /\
    class e = PriceNetworkError /\
    code e = NETWORK_TIMEOUT /\
    message e = "Network timeout for " +:+
                name_or_unknown (PriceProvider.exchangeName this) /\
    trace s' = (trace s ++ t)%list /\
    calls t = request_budget this /\
    sleeps t = request_budget this - 1 /\
    sleeps_of (JS.of_Z 2000) t.
Proof.
  intros Habort. unfold makeRequest, executeWithRetry.
  pose proof (retry_budget_positive (request_settings this)) as Hpos.
  destruct (timeouts_loop (retry_budget (request_settings this)) 1 None s Habort
              ltac:(lia) Hpos) as (s' & t & E & Ht & Hc & Hs & Hall).
  eexists _, s', t. split; [exact E|].
  rewrite timeout_classified, <- request_budget_eq. split_and!; done.
Qed.

End Requests.

Lemma makeRequest_rate_limited_witness :
  exists e,
    makeRequest (H := throttling) mexc mexc_ticker {| world := tt; trace := [] |}
    = (Abrupt (thrown_of e),
       fetched {| world := tt; trace := [] |} mexc_ticker (Normal too_many_requests) tt) /\
    class e = PriceAPIError /\
    code e = API_INVALID_RESPONSE /\
    message e = "Invalid response from MEXC: Rate limit exceeded" /\
    retryAfter e = None /\
    isRetryable e = false.
Proof.
  apply (makeRequest_rate_limited (H := throttling) mexc mexc_ticker
           {| world := tt; trace := [] |} too_many_requests tt);
    reflexivity.
Defined.

Lemma unresponsive_aborts (url : string) (ms : number) :
  always_aborted (H := unresponsive) url ms.
Proof. intros w. by exists abort_error, w. Qed.

Lemma makeRequest_timeouts_witness :
  exists e s' t,
    makeRequest (H := unresponsive) mexc mexc_ticker {| world := tt; trace := [] |}
    = (Abrupt (thrown_of e), s') /\
    class e = PriceNetworkError /\
    code e = NETWORK_TIMEOUT /\
    message e = "Network timeout for MEXC" /\
    trace s' = ([] ++ t)%list /\
    calls t = 3 /\
    sleeps t = 3 - 1 /\
    sleeps_of (JS.of_Z 2000) t.
Proof.
  apply (makeRequest_timeouts (H := unresponsive) mexc mexc_ticker
           {| world := tt; trace := [] |}).
  apply unresponsive_aborts.
Defined.

(** ** Rounding to three decimals *)

Lemma QcZ_1000_nonzero : JS.QcZ 1000 <> 0%Qc.
Proof. change 0%Qc with (JS.QcZ 0). by rewrite QcZ_inj. Qed.

Lemma roundToThreeDecimals_Fin (q : Qc) :
  roundToThreeDecimals (JS.Fin q)
  = JS.Fin (JS.QcZ (Qfloor (this q * inject_Z 1000 + (1 # 2))%Q) / JS.QcZ 1000).
Proof.
  unfold roundToThreeDecimals, JS.of_Z. cbn [JS.mul JS.Math_round JS.div].
  unfold JS.of_Z. cbn [JS.div].
  case_bool_decide as Hz; [by apply QcZ_1000_nonzero in Hz|].
  do 3 f_equal. apply Qfloor_comp.
  unfold JS.QcZ. cbn [this Qcmult Q2Qc]. by rewrite !Qred_correct.
Qed.

(** Rounding keeps a number between the integers it lies between. *)
Lemma roundToThreeDecimals_bounds (q : Qc) (lo hi : Z) :
  (JS.QcZ lo <= q)%Qc -> (q <= JS.QcZ hi)%Qc ->
  exists z,
    roundToThreeDecimals (JS.Fin q) = JS.Fin (JS.QcZ z / JS.QcZ 1000) /\
    (lo * 1000 <= z <= hi * 1000)%Z.
Proof.
  intros Hlo Hhi. rewrite roundToThreeDecimals_Fin. eexists. split; [reflexivity|].
  set (x := (this q * inject_Z 1000 + (1 # 2))%Q).
  pose proof (Qfloor_le x) as Hfl. pose proof (Qlt_floor x) as Hfu.
  unfold x in Hfu at 1.
  unfold Qcle, JS.QcZ in Hlo, Hhi. cbn [this Q2Qc] in Hlo, Hhi.
  rewrite Qred_correct in Hlo, Hhi.
  fold x in Hfl. unfold x in Hfl at 2.
  split.
  - assert (lo * 1000 < Qfloor x + 1)%Z; [|lia].
    rewrite Zlt_Qlt, inject_Z_mult.
    change (inject_Z 1000) with 1000%Q in *. lra.
  - assert (Qfloor x < hi * 1000 + 1)%Z; [|lia].
    rewrite Zlt_Qlt, inject_Z_plus, inject_Z_mult.
    change (inject_Z 1000) with 1000%Q in *.
    change (inject_Z 1) with 1%Q. lra.
Qed.

(** ** The providers *)

(** A price that passed the validator is finite, positive and at most
    10000. *)
Lemma validatePriceData_returns (data : value) (symbol exchange : string) (p : number) :
  validatePriceData data symbol exchange = Normal p ->
  exists q, p = JS.Fin q /\ (0 < q)%Qc /\ (q <= JS.QcZ 10000)%Qc.
Proof.
  unfold validatePriceData.
  destruct (_ || _); [done|].
  destruct (coerce_price data) as [| | |q]; try done. cbn [JS.isNaN JS.isFinite negb orb].
  destruct (JS.leb _ _) eqn:Ele; [done|].
  destruct (JS.gtb _ _) eqn:Egt; [done|].
  intros [= <-]. exists q. split; [done|].
  apply not_true_iff_false in Ele, Egt.
  unfold JS.gtb, JS.of_Z in *. rewrite leb_Fin in Ele. rewrite ltb_Fin in Egt.
  change (JS.QcZ 0) with 0%Qc in Ele.
  split; [by apply Qcnot_le_lt | by apply Qcnot_lt_le].
Qed.

Section Huobi.
Import HuobiPriceProvider.
Context {V W : Type} `{Network W} (this : PriceProvider.t V).

(** X10. Whatever the network answers, a price the Huobi provider returns is
    a whole number of thousandths between 0 and 10000: never [NaN], never an
    infinity, never negative. *)
Theorem Huobi_price_in_range (s s' : machine W) (p : number) :
  getHivePrice this s = (Normal p, s') ->
  exists z, p = JS.Fin (JS.QcZ z / JS.QcZ 1000) /\ (0 <= z <= 10000000)%Z.
Proof.
  unfold getHivePrice. unfold_monad.
  destruct (makeRequest this _ s) as [[data|e] s1]; [|done].
  destruct (Json.get (Some data) "status") as [status|e]; [|done].
  destruct (negb _); [done|].
  destruct (extractLatestTradePrice data) as [rawPrice|e]; [|done].
  unfold provider_validatePriceData.
  destruct (validatePriceData _ _ _) as [price|e] eqn:Evalid; [|done].
  apply validatePriceData_returns in Evalid as (q & -> & Hpos & Hmax).
  unfold_monad. intros [= <- _].
  destruct (roundToThreeDecimals_bounds q 0 10000) as (z & -> & Hz).
  - apply Qclt_le_weak. exact Hpos.
  - exact Hmax.
  - exists z. split; [done|lia].
Qed.

End Huobi.

Lemma Huobi_price_in_range_witness :
  exists z, JS.Fin (JS.QcZ 235 / JS.QcZ 1000) = JS.Fin (JS.QcZ z / JS.QcZ 1000) /\
            (0 <= z <= 10000000)%Z.
Proof.
  apply (Huobi_price_in_range (H := trading) huobi {| world := tt; trace := [] |}
           (fetched {| world := tt; trace := [] |}
              (HuobiPriceProvider.trades huobi) (Normal one_trade) tt)).
  vm_compute. reflexivity.
Defined.

Section RetryOfFailing.
Context {V W A : Type} (this : PriceProvider.t V) (fetchFn : M (machine W) A).

(** The retry helper on a function that always fails with the same error,
    after [c] calls and [sl] sleeps of its own. *)
Lemma fetchWithRetry_loop_fails (e0 : thrown) (c sl : nat)
    (remaining attempt : nat) (lastError : option thrown) (s : machine W) :
  (forall s0, exists s1 t,
     fetchFn s0 = (Abrupt e0, s1) /\ trace s1 = (trace s0 ++ t)%list /\
     calls t = c /\ sleeps t = sl) ->
  attempt + remaining = S (PriceProvider.retryAttempts this) ->
  exists s' t,
    fetchWithRetry_loop this fetchFn remaining attempt lastError s
    = (Abrupt (PriceProvider.surfaced this
                 (match remaining with O => lastError | S _ => Some e0 end)), s') /\
    trace s' = (trace s ++ t)%list /\
    calls t = remaining * c /\
    sleeps t = remaining * sl + (remaining - 1).
Proof.
  intros Hfn. revert attempt lastError s.
  induction remaining as [|remaining IH]; intros attempt lastError s Hinv.
  { exists s, []. cbn. by rewrite app_nil_r. }
  cbn [fetchWithRetry_loop]. unfold_monad.
  destruct (Hfn s) as (s1 & t1 & -> & Ht1 & Hc1 & Hs1).
  destruct (attempt <? PriceProvider.retryAttempts this)%nat eqn:Eatt.
  - apply Nat.ltb_lt in Eatt.
    match goal with
    | |- context [fetchWithRetry_loop _ _ remaining (S attempt) ?le ?st] =>
        destruct (IH (S attempt) le st) as (s' & t & -> & Ht & Hc & Hs); [lia|]
    end.
    destruct remaining as [|r]; [lia|].
    eexists s', (t1 ++ _ :: t)%list. split_and!; [reflexivity | | |].
    + rewrite Ht. cbn [trace]. rewrite Ht1. by rewrite <- !app_assoc.
    + rewrite calls_app. change (calls (?a :: t)) with (calls ([a] ++ t)).
      rewrite calls_app, Hc, Hc1. unfold calls; simpl. lia.
    + rewrite sleeps_app. change (sleeps (?a :: t)) with (sleeps ([a] ++ t)).
      rewrite sleeps_app, Hs, Hs1. unfold sleeps; simpl. lia.
  - apply Nat.ltb_ge in Eatt. assert (remaining = 0) as -> by lia.
    cbn [fetchWithRetry_loop]. unfold_monad.
    eexists s1, t1. split_and!; [reflexivity | done | lia | lia].
Qed.

End RetryOfFailing.

Section MEXC.
Import MEXCPriceProvider.
Context {V W : Type} `{Network W} (this : PriceProvider.t V).

(** X11. The two retry loops of the MEXC provider multiply: when every fetch
    of its ticker is aborted by the timer, the provider makes
    [retryAttempts] times [maxRetries] fetches (3 times 3 by default) before
    it throws the typed time-out. *)
Theorem MEXC_timeouts_multiply (s : machine W) :
  always_aborted (ticker this "HIVEUSDT") (PriceProvider.requestTimeout this) ->
  0 < PriceProvider.retryAttempts this ->
  exists e s' t,
    getHivePrice this s = (Abrupt (thrown_of e), s') /\
    code e = NETWORK_TIMEOUT /\
    trace s' = (trace s ++ t)%list /\
    calls t = PriceProvider.retryAttempts this * request_budget this /\
    sleeps t = PriceProvider.retryAttempts this * (request_budget this - 1) +
               (PriceProvider.retryAttempts this - 1).
Proof.
  intros Habort Hpos. rewrite <- request_budget_eq.
  unfold getHivePrice, fetchWithRetry_of.
  pose proof (retry_budget_positive (request_settings this)) as Hbudget.
  edestruct (fetchWithRetry_loop_fails this (fetchPrice this "HIVEUSDT")
               (thrown_of (DomainAwareErrorHandler.createTypedError
                             (thrown_of (timeout_error this)) (request_settings this)))
               (retry_budget (request_settings this))
               (retry_budget (request_settings this) - 1)
               (PriceProvider.retryAttempts this) 1 None s)
    as (s' & t & E & Ht & Hc & Hs).
  - intros s0. unfold fetchPrice. unfold_monad.
    unfold makeRequest, executeWithRetry.
    destruct (timeouts_loop this (ticker this "HIVEUSDT")
                (retry_budget (request_settings this)) 1 None s0
                Habort ltac:(lia) Hbudget) as (s1 & t & -> & Ht & Hc & Hs & _).
    by exists s1, t.
  - lia.
  - destruct (PriceProvider.retryAttempts this) as [|n] eqn:En; [lia|].
    eexists _, s', t. split; [exact E|]. rewrite timeout_classified.
    split_and!; done.
Qed.

End MEXC.

Lemma MEXC_timeouts_multiply_witness :
  exists e s' t,
    MEXCPriceProvider.getHivePrice (H := unresponsive) mexc {| world := tt; trace := [] |}
    = (Abrupt (thrown_of e), s') /\
    code e = NETWORK_TIMEOUT /\
    trace s' = ([] ++ t)%list /\
    calls t = 3 * 3 /\
    sleeps t = 3 * (3 - 1) + (3 - 1).
Proof.
  apply (MEXC_timeouts_multiply (H := unresponsive) mexc {| world := tt; trace := [] |}).
  - apply unresponsive_aborts.
  - simpl. lia.
Defined.

Section Answered.
Context {V W : Type} `{Network W} (this : PriceProvider.t V).

(** A request that is answered at once with a body that decodes. *)
Lemma makeRequest_answered (url : string) (s : machine W) (response : Response)
    (w' : W) (v : json) :
  fetch url (PriceProvider.requestTimeout this) (world s) = (Normal response, w') ->
  ok response = true ->
  body response = Normal v ->
  makeRequest this url s = (Normal v, fetched s url (Normal response) w').
Proof.
  intros Efetch Hok Hbody. unfold makeRequest. apply executeWithRetry_first_try.
  unfold request_once, request_block, await_fetch. unfold_monad.
  by rewrite Efetch, Hok, Hbody.
Qed.

Lemma fetchWithRetry_of_first_try {A} (fetchFn : M (machine W) A)
    (s s1 : machine W) (v : A) :
  0 < PriceProvider.retryAttempts this ->
  fetchFn s = (Normal v, s1) ->
  fetchWithRetry_of this fetchFn s = (Normal v, s1).
Proof.
  intros Hpos Efn. unfold fetchWithRetry_of.
  destruct (PriceProvider.retryAttempts this) as [|n]; [lia|].
  cbn [fetchWithRetry_loop]. unfold_monad. by rewrite Efn.
Qed.

End Answered.

Section Binance.
Import BinancePriceProvider.
Context {V W : Type} `{Network W} (this : PriceProvider.t V).

(** X12. When both tickers of the Binance provider are answered at once with
    an object, the provider returns the mean of the two prices, rounded once,
    after these two fetches; a price is whatever [parseFloat] reads of the
    property [price], [NaN] included. *)
Theorem Binance_mean_of_pairs (s : machine W) (r1 r2 : Response) (w1 w2 : W)
    (f1 f2 : list (string * json)) :
  0 < PriceProvider.retryAttempts this ->
  fetch (ticker this "HIVEUSDT") (PriceProvider.requestTimeout this) (world s)
  = (Normal r1, w1) ->
  ok r1 = true ->
  body r1 = Normal (JObj f1) ->
  fetch (ticker this "HIVEUSDC") (PriceProvider.requestTimeout this) w1
  = (Normal r2, w2) ->
  ok r2 = true ->
  body r2 = Normal (JObj f2) ->
  getHivePrice this s
  = (Normal (roundToThreeDecimals
               (arithmetic_mean [Json.parseFloat (Json.own f1 "price");
                                 Json.parseFloat (Json.own f2 "price")])),
     fetched (fetched s (ticker this "HIVEUSDT") (Normal r1) w1)
             (ticker this "HIVEUSDC") (Normal r2) w2).
Proof.
  intros Hpos E1 Hok1 Hb1 E2 Hok2 Hb2.
  unfold getHivePrice. cbn [allSettled]. unfold_monad.
  rewrite (fetchWithRetry_of_first_try this (fetchPrice this "HIVEUSDT") s
             (fetched s (ticker this "HIVEUSDT") (Normal r1) w1)
             (Json.parseFloat (Json.own f1 "price")) Hpos).
  2:{ unfold fetchPrice. unfold_monad.
      by rewrite (makeRequest_answered this _ s r1 w1 (JObj f1) E1 Hok1 Hb1). }
  rewrite (fetchWithRetry_of_first_try this (fetchPrice this "HIVEUSDC")
             (fetched s (ticker this "HIVEUSDT") (Normal r1) w1)
             (fetched (fetched s (ticker this "HIVEUSDT") (Normal r1) w1)
                (ticker this "HIVEUSDC") (Normal r2) w2)
             (Json.parseFloat (Json.own f2 "price")) Hpos).
  2:{ unfold fetchPrice. unfold_monad.
      by rewrite (makeRequest_answered this _
                    (fetched s (ticker this "HIVEUSDT") (Normal r1) w1)
                    r2 w2 (JObj f2) E2 Hok2 Hb2). }
  reflexivity.
Qed.

(** X13. When every fetch of both tickers is aborted by the timer, the
    Binance provider makes twice [retryAttempts] times [maxRetries] fetches
    (18 by default) and throws a plain error that names the exchange: the
    typed time-outs of the two pairs are dropped. *)
Theorem Binance_no_pair (s : machine W) :
  always_aborted (ticker this "HIVEUSDT") (PriceProvider.requestTimeout this) ->
  always_aborted (ticker this "HIVEUSDC") (PriceProvider.requestTimeout this) ->
  exists s' t,
    getHivePrice this s
    = (Abrupt (new_Error ("Failed to fetch any HIVE prices from " +:+
                          PriceProvider.exchangeName this)), s') /\
    trace s' = (trace s ++ t)%list /\
    calls t = 2 * (PriceProvider.retryAttempts this * request_budget this).
Proof.
  intros Habort1 Habort2. rewrite <- request_budget_eq.
  pose proof (retry_budget_positive (request_settings this)) as Hbudget.
  assert (forall symbol,
            always_aborted (ticker this symbol) (PriceProvider.requestTimeout this) ->
            forall s0, exists e s1 t,
              fetchWithRetry_of this (fetchPrice this symbol) s0 = (Abrupt e, s1) /\
              trace s1 = (trace s0 ++ t)%list /\
              calls t = PriceProvider.retryAttempts this *
                        retry_budget (request_settings this)) as Hpair.
  { intros symbol Habort s0. unfold fetchWithRetry_of.
    edestruct (fetchWithRetry_loop_fails this (fetchPrice this symbol)
                 (thrown_of (DomainAwareErrorHandler.createTypedError
                               (thrown_of (timeout_error this)) (request_settings this)))
                 (retry_budget (request_settings this))
                 (retry_budget (request_settings this) - 1)
                 (PriceProvider.retryAttempts this) 1 None s0)
      as (s1 & t & E & Ht & Hc & _); [|lia|by eexists _, s1, t].
    intros s2. unfold fetchPrice. unfold_monad.
    unfold makeRequest, executeWithRetry.
    destruct (timeouts_loop this (ticker this symbol)
                (retry_budget (request_settings this)) 1 None s2
                Habort ltac:(lia) Hbudget) as (s3 & t & -> & Ht & Hc & Hs & _).
    by exists s3, t. }
  unfold getHivePrice. cbn [allSettled]. unfold_monad.
  destruct (Hpair "HIVEUSDT" Habort1 s) as (e1 & s1 & t1 & -> & Ht1 & Hc1).
  destruct (Hpair "HIVEUSDC" Habort2 s1) as (e2 & s2 & t2 & -> & Ht2 & Hc2).
  exists s2, (t1 ++ t2)%list. split_and!; [reflexivity | |].
  - by rewrite Ht2, Ht1, <- app_assoc.
  - rewrite calls_app, Hc1, Hc2. lia.
Qed.

End Binance.

Lemma Binance_mean_of_pairs_witness :
  BinancePriceProvider.getHivePrice (H := quoting) binance {| world := tt; trace := [] |}
  = (Normal (roundToThreeDecimals
               (arithmetic_mean
                  [Json.parseFloat (Json.own [("symbol", JStr "HIVEUSDT");
                                              ("price", JStr "0.2340")] "price");
                   Json.parseFloat (Json.own [("symbol", JStr "HIVEUSDC");
                                              ("price", JStr "0.2350")] "price")])),
     fetched (fetched {| world := tt; trace := [] |}
                (BinancePriceProvider.ticker binance "HIVEUSDT")
                (Normal (ticker_quote "HIVEUSDT" "0.2340")) tt)
             (BinancePriceProvider.ticker binance "HIVEUSDC")
             (Normal (ticker_quote "HIVEUSDC" "0.2350")) tt).
Proof.
  apply (Binance_mean_of_pairs (H := quoting) binance {| world := tt; trace := [] |}
           (ticker_quote "HIVEUSDT" "0.2340") (ticker_quote "HIVEUSDC" "0.2350") tt tt);
    first [reflexivity | simpl; lia].
Defined.

Lemma Binance_no_pair_witness :
  exists s' t,
    BinancePriceProvider.getHivePrice (H := unresponsive) binance
      {| world := tt; trace := [] |}
    = (Abrupt (new_Error "Failed to fetch any HIVE prices from Binance"), s') /\
    trace s' = ([] ++ t)%list /\
    calls t = 2 * (3 * 3).
Proof.
  apply (Binance_no_pair (H := unresponsive) binance {| world := tt; trace := [] |});
    apply unresponsive_aborts.
Defined.

(** ** The configuration of the aggregator *)

Lemma index_config_from (config : list ProviderConfig)
    (m : gmap string ProviderConfig) (key : string) :
  fold_left (fun m cfg => <[Str.toLowerCase (name cfg) := cfg]> m) config m !! key
  = match last (configs_named key config) with
    | Some cfg => Some cfg
    | None => m !! key
    end.
Proof.
  revert m. induction config as [|cfg config IH]; intros m; [done|].
  cbn [fold_left]. rewrite IH. unfold configs_named.
  destruct (decide (Str.toLowerCase (name cfg) = key)) as [E|E].
  - rewrite filter_cons_True by done.
    destruct (filter _ config) as [|c l] eqn:El; cbn [last].
    + subst key. by rewrite lookup_insert_eq.
    + by destruct (last (c :: l)) eqn:Elast; [|by apply last_None in Elast].
  - rewrite filter_cons_False by done.
    destruct (last _); [done|]. by rewrite lookup_insert_ne.
Qed.

Lemma providersConfig_lookup {W} (ps : list (@slot W)) (config : list ProviderConfig)
    (this : PriceAggregator.t W) (key : string) :
  PriceAggregator.new ps config = Normal this ->
  PriceAggregator.providersConfig this !! key = last (configs_named key config).
Proof.
  unfold PriceAggregator.new. case_bool_decide; [done|]. intros [= <-].
  cbn [PriceAggregator.providersConfig]. unfold PriceAggregator.index_config.
  rewrite index_config_from, lookup_empty. by destruct (last _).
Qed.

(** X14. The aggregator keeps, for each exchange name in lower case, the
    last entry of the configuration list whose name is that name, case
    ignored; an earlier entry of the same name is overwritten. *)
Theorem config_last_wins {W} (ps : list (@slot W)) (config : list ProviderConfig)
    (this : PriceAggregator.t W) (key : string) :
  PriceAggregator.new ps config = Normal this ->
  PriceAggregator.providersConfig this !! key = last (configs_named key config).
Proof. apply providersConfig_lookup. Qed.

Lemma config_last_wins_witness :
  PriceAggregator.providersConfig two_weights !! "binance"
  = last (configs_named "binance"
            [weighted "Binance" (JS.of_Z 2); weighted "MEXC" (JS.of_Z 1);
             weighted "binance" (JS.of_Z 3)]).
Proof.
  apply (config_last_wins [steady "Binance" (JS.of_Z 9)]
           [weighted "Binance" (JS.of_Z 2); weighted "MEXC" (JS.of_Z 1);
            weighted "binance" (JS.of_Z 3)]).
  reflexivity.
Defined.

(** ** Invariants of the failover wrapper *)

Lemma Math_min_at_most (x m : number) :
  JS.Math_min x m = JS.NaN \/ JS.leb (JS.Math_min x m) m = true.
Proof.
  unfold JS.Math_min, JS.leb.
  destruct (JS.compare x m) as [[| |]|] eqn:E; try (right; by rewrite E); [|by left].
  right. destruct m as [| | |b]; cbn.
  - by destruct x.
  - done.
  - done.
  - assert ((b ?= b)%Qc = Eq) as -> by by apply Qceq_alt. done.
Qed.

Section FailoverInvariant.
Import HiveChainWithFailover.
Context {W : Type} `{Host W}.
Context (operation : option Chain -> W -> outcome value * W).

Lemma kept_attempted (s : state W) (r : outcome value) (w : W) :
  on_a_node (self s) -> kept s (attempted s r w).
Proof.
  intros Hnode. unfold kept, attempted; cbn. split_and!; try done.
  eexists. split; [done|]. repeat constructor.
Qed.

Lemma kept_trans (s s1 s2 : state W) : kept s s1 -> kept s1 s2 -> kept s s2.
Proof.
  intros (_ & Hn1 & Hm1 & Hb1 & Hd1 & t1 & Ht1 & Hs1)
         (Hnode & Hn2 & Hm2 & Hb2 & Hd2 & t2 & Ht2 & Hs2).
  unfold kept. split_and!; try congruence.
  exists (t1 ++ t2)%list. split.
  - by rewrite Ht2, Ht1, <- app_assoc.
  - rewrite Hd1 in Hs2. by apply Forall_app.
Qed.

Lemma loop_keeps (remaining attempt : nat) (lastError : option thrown) (s : state W) :
  on_a_node (self s) ->
  kept s (executeWithFailover_from operation remaining attempt lastError s).2.
Proof.
  revert attempt lastError s.
  induction remaining as [|remaining IH]; intros attempt lastError s Hnode.
  { cbn. unfold kept. split_and!; try done. exists [].
    split; [by rewrite app_nil_r | constructor]. }
  cbn [executeWithFailover_from]. unfold mbind, M_bind, bind, try.
  rewrite run_operation_attempted.
  destruct (operation (chain (self s)) (world (machine_of s))) as [[v|e] w'].
  { cbn [fst snd]. by apply kept_attempted. }
  cbn [fst snd]. destruct (isRecoverableChainError e); cbn [negb].
  2:{ by apply kept_attempted. }
  unfold get_self at 1. cbn [attempted self].
  destruct (S attempt <? maxRetries (self s))%nat.
  2:{ unfold_monad.
      eapply kept_trans; [by apply (kept_attempted s (Abrupt e) w')|].
      apply IH. exact Hnode. }
  destruct Hnode as (c & url & Hc & Hurl & Hlook).
  assert (currentNodeIndex (self s) < length (nodes (self s))) as Hlt
    by (by eapply lookup_lt_Some).
  assert (is_Some (nodes (self s) !!
                   ((currentNodeIndex (self s) + 1) mod length (nodes (self s)))))
    as [next Hnext].
  { apply lookup_lt_is_Some. apply Nat.mod_upper_bound. lia. }
  unfold switchToNextNode, get_self, set_self, on_machine, with_index, with_chain.
  unfold_monad. cbn. rewrite Hc. cbn.
  destruct (Math_random w') as [random w''].
  match goal with
  | |- kept s (executeWithFailover_from _ _ _ _ ?st).2 =>
      eapply (kept_trans s st); [|apply IH]
  end.
  - unfold kept; cbn. split_and!; try done.
    + exists {| endpointUrl := nodes (self s) !!
                  ((currentNodeIndex (self s) + 1) mod length (nodes (self s)));
                apiTimeout := apiTimeout c |}, next.
      by rewrite Hnext.
    + eexists. split; [by rewrite <- app_assoc|].
      apply Forall_cons. split; [done|].
      apply Forall_cons. split; [apply Math_min_at_most | constructor].
  - cbn. eexists _, next. by rewrite Hnext.
Qed.

(** X15. Once initialised on one of its nodes, the wrapper stays on its
    nodes: after a call of [executeWithFailover], whatever the operation did
    and however the call ended, the chain talks to the node at the current
    index, which is one of the configured nodes, and the settings of the
    wrapper are unchanged. No wait of the call is longer than
    [maxRetryDelay] (a wait is [NaN] only if a delay setting or the random
    draw is). *)
Theorem executeWithFailover_stays_on_nodes (s : state W) :
  on_a_node (self s) ->
  on_a_node (self (executeWithFailover operation s).2) /\
  nodes (self (executeWithFailover operation s).2) = nodes (self s) /\
  maxRetries (self (executeWithFailover operation s).2) = maxRetries (self s) /\
  baseRetryDelay (self (executeWithFailover operation s).2) = baseRetryDelay (self s) /\
  maxRetryDelay (self (executeWithFailover operation s).2) = maxRetryDelay (self s) /\
  exists t,
    trace (machine_of (executeWithFailover operation s).2)
    = (trace (machine_of s) ++ t)%list /\
    sleeps_at_most (maxRetryDelay (self s)) t.
Proof.
  intros Hnode.
  assert (executeWithFailover operation s
          = executeWithFailover_from operation (maxRetries (self s)) 0 None s) as ->.
  { destruct Hnode as (c & url & Hc & _).
    unfold executeWithFailover, mbind, M_bind, bind, get_self. by rewrite Hc. }
  destruct (loop_keeps (maxRetries (self s)) 0 None s Hnode)
    as (H1 & H2 & H3 & H4 & H5 & H6).
  done.
Qed.

(** The constructor and [initialize] put the wrapper on its first node,
    with [maxRetries] twice the number of nodes unless the configuration
    gives it: this is where the invariant starts. *)
Lemma initialize_on_first_node (config : Config) (this : t) (k : machine W) :
  new config = Normal this ->
  on_a_node (self (initialize {| self := this; machine_of := k |}).2) /\
  currentNodeIndex (self (initialize {| self := this; machine_of := k |}).2) = 0 /\
  maxRetries this = default (2 * length (config_nodes config)) (config_maxRetries config).
Proof.
  unfold new. case_bool_decide as Hlen; [done|]. intros [= <-].
  unfold initialize, get_self, set_self, with_chain. unfold_monad. cbn.
  destruct (config_nodes config) as [|node l]; [done|].
  split_and!; [| done |].
  - by eexists _, node.
  - destruct (config_maxRetries config); cbn; lia.
Qed.

End FailoverInvariant.

(** ** The final price within the range of the prices *)






Section FinalRange.
Import PriceAggregator.
Context {W : Type} (this : PriceAggregator.t W).





End FinalRange.



Lemma executeWithFailover_stays_on_nodes_witness :
  on_a_node (HiveChainWithFailover.self
               (HiveChainWithFailover.executeWithFailover down_on_a_and_b
                  (started (wrapper_at 0 node_a))).2) /\
  HiveChainWithFailover.nodes
    (HiveChainWithFailover.self
       (HiveChainWithFailover.executeWithFailover down_on_a_and_b
          (started (wrapper_at 0 node_a))).2)
  = [node_a; node_b; node_c] /\
  HiveChainWithFailover.maxRetries
    (HiveChainWithFailover.self
       (HiveChainWithFailover.executeWithFailover down_on_a_and_b
          (started (wrapper_at 0 node_a))).2)
  = 6 /\
  HiveChainWithFailover.baseRetryDelay
    (HiveChainWithFailover.self
       (HiveChainWithFailover.executeWithFailover down_on_a_and_b
          (started (wrapper_at 0 node_a))).2)
  = JS.of_Z 500 /\
  HiveChainWithFailover.maxRetryDelay
    (HiveChainWithFailover.self
       (HiveChainWithFailover.executeWithFailover down_on_a_and_b
          (started (wrapper_at 0 node_a))).2)
  = JS.of_Z 5000 /\
  exists t,
    trace (HiveChainWithFailover.machine_of
             (HiveChainWithFailover.executeWithFailover down_on_a_and_b
                (started (wrapper_at 0 node_a))).2)
    = ([] ++ t)%list /\
    sleeps_at_most (JS.of_Z 5000) t.
Proof.
  apply (executeWithFailover_stays_on_nodes down_on_a_and_b
           (started (wrapper_at 0 node_a))).
  eexists _, node_a. split_and!; reflexivity.
Defined.

(** ** Rounds that yield no price *)

Section NoPrice.
Import PriceAggregator.
Context {W : Type} `{Host W} (this : PriceAggregator.t W).

(** The loop of the aggregator when no round yields a price. *)
Lemma getAggregatedHivePrice_from_no_price (remaining attempt : nat) (s : machine W) :
  round_without_price this ->
  attempt + remaining = S (maxRetries this) ->
  exists s',
    getAggregatedHivePrice_from this remaining attempt s = (Abrupt (exhausted this), s') /\
    control (trace s')
    = (control (trace s) ++
       flat_map (fun k => if (k <? maxRetries this)%nat
                          then [EvRound; EvSleep (JS.mul (JS.of_Z 2000) (JS.of_nat k))]
                          else [EvRound])
                (seq attempt remaining))%list.
Proof.
  intros Hnone. revert attempt s.
  induction remaining as [|n IH]; intros attempt s Hinv.
  - simpl. unfold_monad. eexists. split; [done|]. by rewrite app_nil_r.
  - cbn [getAggregatedHivePrice_from]. unfold_monad.
    destruct (fetchPricesWithTimeout_returns this s) as (l & s1 & E).
    pose proof (fetchPricesWithTimeout_control this s) as Hc.
    pose proof (Hnone _ _ _ E) as Hl.
    rewrite E in *. cbn [fst snd] in *.
    rewrite round_schedule_from by done.
    assert (forall s0,
              control (trace s0) = (control (trace s) ++ [EvRound])%list ->
              exists s',
                (let (c0, s2) :=
                   (if (attempt <? maxRetries this)%nat
                    then fun s2 : machine W =>
                           (Normal (),
                            {| world := world s2;
                               trace := trace s2 ++
                                 [EvSleep (JS.mul (JS.of_Z 2000) (JS.of_nat attempt))] |})
                    else fun s2 : machine W => (Normal (), s2)) s0 in
                 match c0 with
                 | Normal _ => getAggregatedHivePrice_from this n (S attempt) s2
                 | Abrupt e => (Abrupt e, s2)
                 end) = (Abrupt (exhausted this), s') /\
                control (trace s')
                = (control (trace s) ++
                   EvRound ::
                   (if (attempt <? maxRetries this)%nat
                    then [EvSleep (JS.mul (JS.of_Z 2000) (JS.of_nat attempt))]
                    else []) ++
                   flat_map
                     (fun k => if (k <? maxRetries this)%nat
                               then [EvRound;
                                     EvSleep (JS.mul (JS.of_Z 2000) (JS.of_nat k))]
                               else [EvRound])
                     (seq (S attempt) n))%list) as Hnext.
    { intros s0 Hs0. destruct (attempt <? maxRetries this)%nat.
      - destruct (IH (S attempt)
                    {| world := world s0;
                       trace := trace s0 ++
                                [EvSleep (JS.mul (JS.of_Z 2000) (JS.of_nat attempt))] |})
          as (s' & -> & Hs'); [lia|].
        eexists. split; [done|]. rewrite Hs'. cbn [trace].
        rewrite control_app, Hs0. by rewrite <- !app_assoc.
      - destruct (IH (S attempt) s0) as (s' & -> & Hs'); [lia|].
        eexists. split; [done|]. rewrite Hs', Hs0. by rewrite <- !app_assoc. }
    destruct Hl as [-> | (e & ->)].
    + change (0 <? length (@nil ExchangePrice))%nat with false. by apply Hnext.
    + destruct (0 <? _)%nat; by apply Hnext.
Qed.

(** X5. A failure of the final-price calculation is not propagated: the
    loop of the aggregator treats it like a round without success. When no
    round yields a price, be it for want of a success or because the
    calculation fails (on a zero total weight), the aggregation runs
    [maxRetries] rounds with the sleeps in between and throws the error that
    all exchanges failed or timed out. *)
Theorem calculation_failure_is_retried (s : machine W) :
  providers this <> [] ->
  round_without_price this ->
  exists s',
    getAggregatedHivePrice this s
    = (Abrupt (new_Error ("Failed to obtain HIVE price after " +:+
                          pretty (maxRetries this) +:+
                          " attempts. All exchanges failed or timed out.")),
       s') /\
    control (trace s') = (control (trace s) ++ round_schedule (maxRetries this))%list /\
    rounds (trace s') = rounds (trace s) + maxRetries this.
Proof.
  intros Hproviders Hnone. unfold getAggregatedHivePrice.
  rewrite bool_decide_eq_false_2 by by destruct (providers this).
  destruct (getAggregatedHivePrice_from_no_price (maxRetries this) 1 s Hnone)
    as (s' & E & Hs'); [lia|].
  exists s'. split_and!; [done | done |].
  rewrite <- (rounds_control (trace s')), Hs'.
  unfold rounds at 1. rewrite filter_app, length_app.
  fold (rounds (control (trace s))). rewrite rounds_control.
  f_equal. apply rounds_schedule.
Qed.

End NoPrice.

Lemma opposite_weights_without_price : round_without_price opposite_weights.
Proof.
  intros [w t] l s' E. vm_compute in E. injection E as <- _.
  right. eexists. vm_compute. reflexivity.
Defined.

Lemma calculation_failure_is_retried_witness :
  exists s',
    PriceAggregator.getAggregatedHivePrice opposite_weights {| world := tt; trace := [] |}
    = (Abrupt (new_Error ("Failed to obtain HIVE price after " +:+
                          pretty (PriceAggregator.maxRetries opposite_weights) +:+
                          " attempts. All exchanges failed or timed out.")),
       s') /\
    control (trace s')
    = (control [] ++ round_schedule (PriceAggregator.maxRetries opposite_weights))%list /\
    rounds (trace s') = rounds [] + PriceAggregator.maxRetries opposite_weights.
Proof.
  apply (calculation_failure_is_retried opposite_weights);
    [done | apply opposite_weights_without_price].
Defined.

(** ** The validity checks *)

Lemma validatePrice_iff (v : value) :
  FeedPublisher.validatePrice v = Normal tt <-> isValidPrice v = true.
Proof.
  unfold FeedPublisher.validatePrice, isValidPrice.
  destruct v as [| | |n|]; try (split; discriminate).
  destruct n as [| | |q]; try (split; [discriminate | done]); try done.
  cbn [JS.isNaN negb]. rewrite orb_false_r, andb_true_r.
  unfold JS.gtb, JS.of_Z.
  destruct (JS.leb (JS.Fin q) (JS.Fin (JS.QcZ 0))) eqn:Ele.
  + apply leb_Fin in Ele. split; [discriminate|].
    intros Hlt%ltb_Fin. by apply Qcle_not_lt in Ele.
  + split; [intros _|done]. apply ltb_Fin. apply Qcnot_le_lt.
    intros Hle. apply leb_Fin in Hle. congruence.
Qed.

(** X16. The validity checks are ordered. The check of the publisher and
    the check of the provider mapping accept the same values: the numbers
    greater than 0, [Infinity] included. The validator of the providers is
    stricter: a price it returns passes the two others, and it rejects
    [Infinity], which they accept. *)
Theorem validity_checks_ordered :
  (forall v : value,
     FeedPublisher.validatePrice v = Normal tt <-> isValidPrice v = true) /\
  (forall (data : value) (symbol exchange : string) (p : number),
     validatePriceData data symbol exchange = Normal p ->
     isValidPrice (VNum p) = true) /\
  (forall symbol exchange : string,
     isValidPrice (VNum JS.PosInf) = true /\
     exists e, validatePriceData (VNum JS.PosInf) symbol exchange = Abrupt e /\
               code e = INVALID_PRICE_DATA).
Proof.
  split_and!.
  - apply validatePrice_iff.
  - intros data symbol exchange p Hp.
    apply validatePriceData_returns in Hp as (q & -> & Hpos & _).
    unfold isValidPrice, JS.gtb. cbn [JS.isNaN negb]. rewrite andb_true_r.
    by apply ltb_Fin.
  - intros symbol exchange. split; [done|]. by eexists.
Qed.

(** ** The publisher *)

Section NoOperation.
Context {W : Type} `{Host W}.













End NoOperation.

Section Publisher.
Import FeedPublisher.
Context {W : Type} `{Host W} {asset : Type}.
Context (priceAggregator : PriceAggregator.t W).
Context (hbdCoins hiveCoins : number -> outcome asset).
Context (broadcast : string -> string -> asset -> asset ->
                     option HiveChainWithFailover.Chain -> W -> outcome value * W).


End Publisher.


(** ** The provider table as shipped *)

Section PlainMean.
Import PriceAggregator.

(** With every configured weight 1.0 the weighted branch is not taken. *)
Lemma unit_weights_plain_mean {W} (ps : list (@slot W)) (config : list ProviderConfig)
    (this : PriceAggregator.t W) (prices : list ExchangePrice) :
  Forall (fun cfg => config_weight cfg = Some (JS.of_Z 1)) config ->
  PriceAggregator.new ps config = Normal this ->
  prices <> [] ->
  calculateFinalPrice this prices
  = Normal (roundToThreeDecimals (arithmetic_mean (map price prices))).
Proof.
  intros Hunit Hnew Hne.
  assert (forall ep, weight_of this ep = JS.of_Z 1) as Hweight.
  { intros ep. unfold weight_of.
    rewrite (providersConfig_lookup ps config this _ Hnew).
    destruct (last _) as [cfg|] eqn:Elast; [|done].
    apply last_Some_elem_of in Elast.
    apply list_elem_of_filter in Elast as [_ Hin].
    rewrite Forall_forall in Hunit. cbn. by rewrite (Hunit _ Hin). }
  unfold calculateFinalPrice.
  rewrite bool_decide_eq_false_2 by by destruct prices.
  assert (existsb (fun p => JS.strict_ne (weight p) (JS.of_Z 1))
                  (applyWeights this prices) = false) as ->.
  { unfold applyWeights. induction prices as [|ep l IH]; [done|].
    cbn [map existsb weight]. rewrite Hweight. destruct l; [done|]. by rewrite IH. }
  unfold arithmetic_mean, sum.
  by rewrite length_map, <- (fold_left_through_map JS.add).
Qed.

(** X18. With the provider table as it is shipped, the active configuration
    does not depend on the environment: it is the five exchanges of the
    table, all enabled, all with the weight 1.0. An aggregator built on it
    returns the plain arithmetic mean of the successful prices, rounded to
    three decimals; the weighted branch is never taken. *)
Theorem shipped_configuration_plain_mean
    (env : gmap string string) (JSON_parse : string -> outcome json) :
  exists config,
    ProvidersConfig.getActiveProvidersConfig env JSON_parse
    = ProvidersConfig.Checked config /\
    map name config = ["binance"; "bitget"; "huobi"; "mexc"; "probit"] /\
    Forall (fun cfg => enabled cfg = true /\ config_weight cfg = Some (JS.of_Z 1))
           config /\
    forall (W : Type) (ps : list (@slot W)) (this : PriceAggregator.t W)
           (prices : list ExchangePrice),
      PriceAggregator.new ps config = Normal this ->
      prices <> [] ->
      calculateFinalPrice this prices
      = Normal (roundToThreeDecimals (arithmetic_mean (map price prices))).
Proof.
  eexists. split; [reflexivity|]. split; [reflexivity|]. split.
  - repeat constructor.
  - intros W ps this prices. apply unit_weights_plain_mean. repeat constructor.
Qed.

End PlainMean.

(** ** The Bitget provider *)

Lemma roundToThreeDecimals_nonneg (q : Qc) :
  (0 <= q)%Qc ->
  exists z, roundToThreeDecimals (JS.Fin q) = JS.Fin (JS.QcZ z / JS.QcZ 1000) /\
            (0 <= z)%Z.
Proof.
  intros Hq. rewrite roundToThreeDecimals_Fin. eexists. split; [reflexivity|].
  change 0%Z with (Qfloor 0). apply Qfloor_resp_le.
  unfold Qcle in Hq. change (this 0%Qc) with 0%Q in Hq.
  change (inject_Z 1000) with 1000%Q. lra.
Qed.

Section Bitget.
Import BitgetPriceProvider.
Context {V W : Type} `{Network W} (this : PriceProvider.t V).

(** X19. Whatever the network answers, a price the Bitget provider returns is
    never [NaN] and never negative: it is a whole number of thousandths, 0
    or more, or [Infinity]. *)
Theorem Bitget_price_not_negative (s s' : machine W) (p : number) :
  getHivePrice this s = (Normal p, s') ->
  p = JS.PosInf \/
  exists z, p = JS.Fin (JS.QcZ z / JS.QcZ 1000) /\ (0 <= z)%Z.
Proof.
  unfold getHivePrice. unfold_monad.
  destruct (makeRequest this _ s) as [[data|e] s1]; [|done].
  destruct (Json.get (Some data) "code") as [code|e]; [|done].
  destruct (negb _).
  { by destruct (Json.get (Some data) "msg"). }
  destruct (find_in_data "data.data" data) as [hiveSymbol|e]; [|done].
  destruct (negb _); [done|].
  destruct (Json.get hiveSymbol "status") as [status|e]; [|done].
  destruct (negb _); [done|].
  destruct (makeRequest this _ s1) as [[tickerData|e] s2]; [|done].
  destruct (Json.get (Some tickerData) "code") as [code2|e]; [|done].
  destruct (negb _).
  { by destruct (Json.get (Some tickerData) "msg"). }
  destruct (find_in_data "tickerData.data" tickerData) as [ticker|e]; [|done].
  destruct (negb _); [done|].
  destruct (Json.get ticker "lastPr") as [lastPr|e]; [|done].
  assert (forall raw : Json.t,
            (if JS.isNaN (Json.parseFloat raw) ||
                JS.leb (Json.parseFloat raw) (JS.of_Z 0)
             then fun s0 : machine W =>
                    (Abrupt (new_Error ("Invalid price received: " +:+
                                        Number_toString (Json.parseFloat raw))), s0)
             else fun s0 : machine W =>
                    (Normal (roundToThreeDecimals (Json.parseFloat raw)), s0)) s2
            = (Normal p, s') ->
            p = JS.PosInf \/
            exists z, p = JS.Fin (JS.QcZ z / JS.QcZ 1000) /\ (0 <= z)%Z) as Hlast.
  { intros raw. destruct (Json.parseFloat raw) as [| | |q] eqn:Eprice; try done.
    - intros [= <- _]. by left.
    - cbn [JS.isNaN orb].
      destruct (JS.leb (JS.Fin q) (JS.of_Z 0)) eqn:Ele; [done|].
      intros [= <- _]. right. apply roundToThreeDecimals_nonneg.
      apply Qcnot_lt_le. intros Hlt.
      apply not_true_iff_false in Ele. apply Ele, leb_Fin.
      by apply Qclt_le_weak. }
  destruct (Json.truthy lastPr).
  - apply Hlast.
  - destruct (Json.get ticker "close") as [close|e]; [apply Hlast | done].
Qed.

End Bitget.

Lemma Bitget_price_not_negative_witness :
  JS.Fin (JS.QcZ 235 / JS.QcZ 1000) = JS.PosInf \/
  exists z, JS.Fin (JS.QcZ 235 / JS.QcZ 1000) = JS.Fin (JS.QcZ z / JS.QcZ 1000) /\
            (0 <= z)%Z.
Proof.
  apply (Bitget_price_not_negative (H := listing) bitget {| world := tt; trace := [] |}
           (fetched (fetched {| world := tt; trace := [] |}
                       (BitgetPriceProvider.symbols bitget) (Normal listed_online) tt)
                    (BitgetPriceProvider.tickers bitget) (Normal last_price) tt)).
  vm_compute. reflexivity.
Defined.

(** ** The entries of a round, provider by provider *)

Section RoundEntries.
Context {W : Type}.

Lemma exchange_price_of_entry (provider : @slot W) (s : machine W) :
  round_entry provider (settled_value (exchange_price_of provider s).1).
Proof.
  unfold exchange_price_of, checked_price, round_entry.
  destruct provider as [p|]; unfold_monad; [|done].
  unfold name_or_unknown. case_bool_decide as Hname; [done|].
  destruct (PriceProvider.getHivePrice p (world s)) as [[n|e] w] eqn:E.
  - destruct (isValidPrice (VNum n)) eqn:Ev; cbn.
    + left. by exists (world s), w.
    + right. left. by exists n, (world s), w.
  - cbn. right. right. by exists e, (world s), w.
Qed.

(** X20. The validated mapping never throws: on every provider list and in
    every state it returns one entry per provider, in the order of the
    providers. The entry of a provider is a success with the price it
    returned when that price is a number greater than 0; a failure that
    quotes the price when it is not; a failure with the message of the error
    when the fetch threw. A provider without a name is reported as
    "Unknown", a missing provider as a rejected promise. *)
Theorem mapProvidersToExchangePrices_entries (providers : list (@slot W))
    (s : machine W) :
  exists l s',
    mapProvidersToExchangePrices providers s = (Normal l, s') /\
    length l = length providers /\
    Forall2 round_entry providers l.
Proof.
  unfold mapProvidersToExchangePrices.
  destruct (allSettled_spec exchange_price_of
              (fun provider r => round_entry provider (settled_value r))
              providers s) as (rs & s' & E & Hrs).
  { intros x s0. apply exchange_price_of_entry. }
  unfold_monad. rewrite E. eexists _, _.
  assert (Forall2 round_entry providers (map settled_value rs)) as Hall
    by by apply Forall2_fmap_r.
  split_and!; [done | | done].
  symmetry. by eapply Forall2_length.
Qed.

End RoundEntries.

(** ** The attempts of the failover wrapper *)

Section Attempts.
Import HiveChainWithFailover.
Context {W : Type} `{Host W}.
Context (operation : option Chain -> W -> outcome value * W).

Lemma on_a_node_attempted (s : state W) (r : outcome value) (w : W) :
  on_a_node (self s) -> on_a_node (self (attempted s r w)).
Proof. done. Qed.

(** Counts the events of a trace of one attempt. *)
Ltac one_attempt :=
  unfold operations, sleeps;
  rewrite ?filter_cons_True, ?filter_cons_False, ?filter_nil by done;
  cbn [length]; repeat split; lia.

(** The loop, from any of its iterations. *)
Lemma loop_attempts (remaining attempt : nat) (lastError : option thrown) (s : state W) :
  on_a_node (self s) ->
  attempt + remaining = maxRetries (self s) ->
  exists t,
    trace (machine_of (executeWithFailover_from operation remaining attempt lastError s).2)
    = (trace (machine_of s) ++ t)%list /\
    operations t <= remaining /\
    (1 <= remaining -> 1 <= operations t /\ sleeps t = operations t - 1) /\
    (remaining = 0 ->
     t = [] /\
     (executeWithFailover_from operation remaining attempt lastError s).1
     = Abrupt (rethrow lastError)).
Proof.
  revert attempt lastError s.
  induction remaining as [|remaining IH]; intros attempt lastError s Hnode Hinv.
  { exists []. cbn. rewrite app_nil_r. split_and!; [done | done | lia | done]. }
  destruct (operation (chain (self s)) (world (machine_of s))) as [[v|e] w'] eqn:Eop.
  { rewrite (loop_on_success operation remaining attempt lastError s v w' Eop).
    eexists [_]. cbn [snd attempted machine_of trace].
    split_and!; [done | one_attempt | intros _; one_attempt | lia]. }
  destruct (isRecoverableChainError e) eqn:Erec.
  2:{ rewrite (loop_on_non_recoverable operation remaining attempt lastError s e w'
                 Eop Erec).
      eexists [_]. cbn [snd attempted machine_of trace].
      split_and!; [done | one_attempt | intros _; one_attempt | lia]. }
  destruct (decide (S attempt < maxRetries (self s))) as [Hleft|Hlast].
  - destruct Hnode as (c & url & Hc & Hurl & Hlook).
    destruct (loop_on_recoverable operation remaining attempt lastError s e w' c
                Eop Erec Hleft Hc)
      as (s1 & -> & Hidx & Hend & [c1 Hc1] & Hnodes & Hmax & delay & Ht).
    assert (on_a_node (self s1)) as Hnode1.
    { assert (currentNodeIndex (self s) < length (nodes (self s))) as Hlt
        by (by eapply lookup_lt_Some).
      assert (is_Some (nodes (self s) !! currentNodeIndex (self s1))) as [next Hnext].
      { apply lookup_lt_is_Some. rewrite Hidx. apply Nat.mod_upper_bound. lia. }
      exists c1, next. rewrite Hc1 in Hend. cbn in Hend.
      rewrite Hnodes. split_and!; [done | congruence | done]. }
    destruct (IH (S attempt) (Some e) s1 Hnode1 ltac:(lia))
      as (t & Ht' & Hops & Hpos & _).
    destruct (Hpos ltac:(lia)) as [Hone Hsleeps].
    exists ([EvOperation (endpointUrl c) (Abrupt e); EvSleep delay] ++ t)%list.
    split_and!.
    + rewrite Ht', Ht. by rewrite <- !app_assoc.
    + rewrite operations_app.
      assert (operations [EvOperation (endpointUrl c) (Abrupt e); EvSleep delay] = 1)
        as -> by done.
      lia.
    + intros _. rewrite operations_app, sleeps_app.
      assert (operations [EvOperation (endpointUrl c) (Abrupt e); EvSleep delay] = 1)
        as -> by done.
      assert (sleeps [EvOperation (endpointUrl c) (Abrupt e); EvSleep delay] = 1)
        as -> by done.
      lia.
    + lia.
  - assert (remaining = 0) as -> by lia.
    cbn [executeWithFailover_from].
    unfold mbind, M_bind, bind, try. rewrite run_operation_attempted, Eop.
    cbn [fst snd]. rewrite Erec. cbn [negb].
    unfold get_self at 1. cbn [attempted self].
    assert ((S attempt <? maxRetries (self s))%nat = false) as ->
      by (apply Nat.ltb_ge; lia).
    unfold_monad. eexists [_]. cbn [snd attempted machine_of trace].
    split_and!; [done | one_attempt | intros _; one_attempt | lia].
Qed.

(** X21. Once initialised on one of its nodes, the wrapper never attempts
    an operation more than [maxRetries] times in a call, and it sleeps
    exactly once between two consecutive attempts, whatever the operation
    does. With [maxRetries] 0, which the constructor accepts, it makes no
    attempt at all and throws [undefined]. *)
Theorem executeWithFailover_attempts_bounded (s : state W) :
  on_a_node (self s) ->
  exists t,
    trace (machine_of (executeWithFailover operation s).2)
    = (trace (machine_of s) ++ t)%list /\
    operations t <= maxRetries (self s) /\
    (0 < maxRetries (self s) ->
     1 <= operations t /\ sleeps t = operations t - 1) /\
    (maxRetries (self s) = 0 ->
     t = [] /\ (executeWithFailover operation s).1 = Abrupt thrown_undefined).
Proof.
  intros Hnode.
  assert (executeWithFailover operation s
          = executeWithFailover_from operation (maxRetries (self s)) 0 None s) as ->.
  { destruct Hnode as (c & url & Hc & _).
    unfold executeWithFailover, mbind, M_bind, bind, get_self. by rewrite Hc. }
  destruct (loop_attempts (maxRetries (self s)) 0 None s Hnode ltac:(lia))
    as (t & Ht & Hops & Hpos & Hzero).
  exists t. split_and!; [done | done | intros; apply Hpos; lia | done].
Qed.

End Attempts.

Lemma executeWithFailover_attempts_bounded_witness :
  exists t,
    trace (HiveChainWithFailover.machine_of
             (HiveChainWithFailover.executeWithFailover down_on_a_and_b
                (started (wrapper_at 0 node_a))).2)
    = ([] ++ t)%list /\
    operations t <= 6 /\
    (0 < 6 -> 1 <= operations t /\ sleeps t = operations t - 1) /\
    (6 = 0 ->
     t = [] /\
     (HiveChainWithFailover.executeWithFailover down_on_a_and_b
        (started (wrapper_at 0 node_a))).1 = Abrupt thrown_undefined).
Proof.
  apply (executeWithFailover_attempts_bounded down_on_a_and_b
           (started (wrapper_at 0 node_a))).
  eexists _, node_a. split_and!; reflexivity.
Defined.
